(** * The xxl-job executor: admission, kill, idle-beat and callback paths

    A shallow embedding of [executor.go].  The executor owns two tables of
    [*Task] (the handlers registered by name and the tasks now running,
    keyed by the text of the job id), the Task objects those tables point
    to, and what it does to the outside world: replies written to the
    scheduler, cancel functions invoked, goroutines started, posts and
    alerts sent.  The outside world is kept as a trace of events, in the
    order the code produces them.

    Each HTTP handler holds [e.mu] from its first to its last statement, so
    a handler is one atomic transition of the executor.  [callback] runs on
    the goroutine of the task that finished and does not take [e.mu]; here
    it is one transition as well, taken between two handlers.  The [Logger]
    calls only write to the log and are left out, and so is what the
    goroutine of a task does before it calls back ([Task.Run] is declared in
    another file). *)

From Stdlib Require Import ZArith Ascii String.
From stdpp Require Import base option list strings gmap pretty.

(** ** What the file uses but does not declare *)

(** [coverEarly] (a string constant of the block strategies) and [Int64ToStr]
    (the text of an int64, the key of the running table) are declared
    elsewhere in the package.  [unicode_ToLower] is the strings library's
    [Map(unicode.ToLower, s)], the case mapping of text that is not ASCII,
    which rests on the Unicode tables.  The development is parametric in the
    three. *)
Class Declared := {
  coverEarly : string;
  Int64ToStr : Z → string;
  unicode_ToLower : string → string
}.

(** Modelled from the spec: the constants [SuccessCode] and [FailureCode] are
    declared outside src/; §6 has "a body-embedded domain code
    (success/failure)". *)
Inductive code := SuccessCode | FailureCode.

(** The fields of the request structs that [executor.go] reads. *)
Module RunReq.
Record t := {
  JobID : Z;
  ExecutorHandler : string;
  ExecutorParams : string;
  ExecutorBlockStrategy : string;
  ExecutorTimeout : Z
}.
(** [&RunReq{}] *)
Definition zero : t := {|
  JobID := 0; ExecutorHandler := ""; ExecutorParams := "";
  ExecutorBlockStrategy := ""; ExecutorTimeout := 0
|}%Z.
End RunReq.

Module killReq.
Record t := { JobID : Z }.
Definition zero : t := {| JobID := 0%Z |}.
End killReq.

Module idleBeatReq.
Record t := { JobID : Z }.
Definition zero : t := {| JobID := 0%Z |}.
End idleBeatReq.

(** [json.Unmarshal(req, &param)] with [param] a pointer to a zero struct.
    The library either rejects the bytes before storing anything, reports a
    type mismatch after storing the fields that did decode, stores nil in
    [param] for the literal null, or decodes a value. *)
Inductive Unmarshal (A : Type) :=
| SyntaxError
| UnmarshalTypeError (partial : A)
| Null
| Value (v : A).
Arguments SyntaxError {A}.
Arguments UnmarshalTypeError {A} partial.
Arguments Null {A}.
Arguments Value {A} v.

(** The pointer left in [param] ([None] is nil) and whether [err != nil]. *)
Definition json_Unmarshal {A} (zero : A) (body : Unmarshal A) : option A * bool :=
  match body with
  | SyntaxError => (Some zero, true)
  | UnmarshalTypeError partial => (Some partial, true)
  | Null => (None, false)
  | Value v => (Some v, false)
  end.

(** Modelled from the spec: [returnCall], [returnKill], [returnIdleBeat] and
    [returnGeneral] build the reply bodies and are declared outside src/; §6
    has every reply as "{code, msg}" with the status in the code.  A reply
    is kept as the call that built it. *)
Inductive reply :=
| returnCall (req : RunReq.t) (c : code) (msg : string)
| returnKill (req : killReq.t) (c : code)
| returnIdleBeat (c : code)
| returnGeneral.

(** Modelled from the spec: the code inside a reply (§4.4: [beat] and the
    success paths answer with a "success" reply, which is [returnGeneral]). *)
Definition reply_code (r : reply) : code :=
  match r with
  | returnCall _ c _ => c
  | returnKill _ c => c
  | returnIdleBeat c => c
  | returnGeneral => SuccessCode
  end.

(** [fmt.Sprintf format args...], kept as the call. *)
Inductive Arg := ArgS (s : string) | ArgD (d : Z).
Inductive text := Sprintf (format : string) (args : list Arg).

(** [strings.ToLower], as the library has it: a string whose bytes are all
    below [utf8.RuneSelf] (0x80) is mapped byte by byte, 'A'..'Z' to
    'a'..'z'; any other string goes through [Map(unicode.ToLower, s)]. *)
Definition lower (c : ascii) : ascii :=
  let n := nat_of_ascii c in
  if (65 <=? n)%nat && (n <=? 90)%nat then ascii_of_nat (n + 32) else c.

Fixpoint lowerBytes (s : string) : string :=
  match s with
  | EmptyString => EmptyString
  | String c s' => String (lower c) (lowerBytes s')
  end.

Fixpoint isASCII (s : string) : bool :=
  match s with
  | EmptyString => true
  | String c s' => (nat_of_ascii c <? 128)%nat && isASCII s'
  end.

Definition ToLower `{Declared} (s : string) : string :=
  if isASCII s then lowerBytes s else unicode_ToLower s.

(** [strings.Contains] *)

Fixpoint Contains (s substr : string) : bool :=
  if String.prefix substr s then true
  else match s with
       | EmptyString => false
       | String _ s' => Contains s' substr
       end.

(** What [e.post] and the [ioutil.ReadAll] of the response come back with. *)
Inductive ReadAll := ReadErr (err : string) | Body (body : string).
Inductive Response := PostErr (err : string) | Resp (body : ReadAll).

(** ** Tasks, contexts and the tables *)

Definition ptr := nat.          (* a [*Task] *)
Definition TaskFunc := nat.     (* a registered job function *)
Definition CancelFunc := nat.   (* the cancel function of one context *)

(** int64 arithmetic wraps *)
Definition int64 (z : Z) : Z := ((z + 2 ^ 63) mod 2 ^ 64 - 2 ^ 63)%Z.

(** [time.Second], in nanoseconds *)
Definition Second : Z := 1000000000%Z.

(** A context made in [runTask]: the value under "trace_id" and, for
    [WithTimeout], the duration. *)
Record Context := {
  trace_id : text;
  timeout : option Z
}.

(** The fields of [Task] that [executor.go] reads or assigns ([log] apart).
    [Ext], [Param] and [Cancel] are nil in a Task made by [RegTask]. *)
Record Task := {
  Id : Z;
  Name : string;
  Ext : option Context;
  Param : option RunReq.t;
  fn : option TaskFunc;
  Cancel : option CancelFunc
}.

(** Modelled from the spec: the methods of [taskList] are declared outside
    src/; §4.1 has "exists(id) -> bool, get(id) -> Task|absent, set(id, task)
    (overwrites), delete(id) (idempotent no-op if absent)".  [Init] builds
    the table as a [map[string]*Task], so what [Get] hands back is the
    pointer that [Set] stored. *)
Module taskList.
Definition Exists (data : gmap string ptr) (key : string) : bool :=
  bool_decide (is_Some (data !! key)).
Definition Get (data : gmap string ptr) (key : string) : option ptr :=
  data !! key.
Definition Set_ (data : gmap string ptr) (key : string) (val : ptr) : gmap string ptr :=
  <[key := val]> data.
Definition Del (data : gmap string ptr) (key : string) : gmap string ptr :=
  delete key data.
End taskList.

(** ** The executor and its effects *)

Record Options := {
  ServerAddr : string;
  AccessToken : string;
  NotifyWebhook : string;
  NotifySecret : string
}.

Inductive event :=
| Write (r : reply)                       (* writer.Write(r) *)
| Invoke (cancel : CancelFunc)            (* a cancel function is called *)
| RunSet (key : string) (task : ptr)      (* e.runList.Set(key, task) *)
| RunDel (key : string)                   (* e.runList.Del(key) *)
| Go (task : ptr)                         (* go task.Run(notify, callback) *)
| Post (action : string) (body : reply)   (* e.post(action, body) *)
| Alert (webhook secret : string) (content : text) (isAtAll : bool).

Record executor := {
  opts : Options;
  regList : gmap string ptr;
  runList : gmap string ptr;
  tasks : gmap ptr Task;      (* the Task objects the tables point to *)
  contexts : nat;             (* contexts made so far *)
  trace : list event          (* oldest first *)
}.

Definition with_regList (f : gmap string ptr → gmap string ptr) (e : executor) : executor :=
  {| opts := opts e; regList := f (regList e); runList := runList e;
     tasks := tasks e; contexts := contexts e; trace := trace e |}.

Definition with_runList (f : gmap string ptr → gmap string ptr) (e : executor) : executor :=
  {| opts := opts e; regList := regList e; runList := f (runList e);
     tasks := tasks e; contexts := contexts e; trace := trace e |}.

Definition with_tasks (f : gmap ptr Task → gmap ptr Task) (e : executor) : executor :=
  {| opts := opts e; regList := regList e; runList := runList e;
     tasks := f (tasks e); contexts := contexts e; trace := trace e |}.

Definition with_contexts (f : nat → nat) (e : executor) : executor :=
  {| opts := opts e; regList := regList e; runList := runList e;
     tasks := tasks e; contexts := f (contexts e); trace := trace e |}.

Definition with_trace (f : list event → list event) (e : executor) : executor :=
  {| opts := opts e; regList := regList e; runList := runList e;
     tasks := tasks e; contexts := contexts e; trace := f (trace e) |}.

(** A method either returns or panics (a nil dereference); either way it
    leaves an executor behind: the mutex is released by [defer] and the HTTP
    server recovers the panic. *)
Inductive outcome (A : Type) :=
| Ret (a : A) (e : executor)
| Panic (e : executor).
Arguments Ret {A} a e.
Arguments Panic {A} e.

Definition M (A : Type) : Type := executor → outcome A.

Definition ret {A} (a : A) : M A := λ e, Ret a e.

Definition bind {A B} (m : M A) (k : A → M B) : M B :=
  λ e, match m e with
       | Ret a e' => k a e'
       | Panic e' => Panic e'
       end.

Definition panic {A} : M A := λ e, Panic e.

Notation "'let*' x ':=' m 'in' k" := (bind m (λ x, k))
  (at level 10, x pattern, m at level 100, k at level 200).
Notation "'do' m 'in' k" := (bind m (λ _, k))
  (at level 10, m at level 100, k at level 200).

(** The executor a method leaves behind. *)
Definition after {A} (o : outcome A) : executor :=
  match o with Ret _ e => e | Panic e => e end.

(** Reading through a pointer that may be nil. *)
Definition deref {A} (p : option A) : M A :=
  match p with Some a => ret a | None => panic end.

Definition emit (ev : event) : M unit :=
  λ e, Ret tt (with_trace (λ t, t ++ [ev]) e).

Definition load (p : ptr) : M Task :=
  λ e, match tasks e !! p with Some t => Ret t e | None => Panic e end.

Definition store (p : ptr) (t : Task) : M unit :=
  λ e, Ret tt (with_tasks (insert p t) e).

(** [&Task{...}]: a new object, at an address no object has. *)
Definition new (t : Task) : M ptr :=
  λ e, let p := fresh (dom (tasks e)) in Ret p (with_tasks (insert p t) e).

(** [context.WithCancel] and [context.WithTimeout]: a new context and the
    function that cancels it. *)
Definition WithCancel (value : text) : M (Context * CancelFunc) :=
  λ e, Ret ({| trace_id := value; timeout := None |}, contexts e)
           (with_contexts S e).

Definition WithTimeout (value : text) (d : Z) : M (Context * CancelFunc) :=
  λ e, Ret ({| trace_id := value; timeout := Some d |}, contexts e)
           (with_contexts S e).

(** ** The methods of [executor.go] *)

Section executor.
Context `{Declared}.

(** [Init]: both tables are made empty.  The registry goroutine it starts
    only posts to the scheduler and is not part of this development. *)
Definition Init (o : Options) : executor :=
  {| opts := o; regList := ∅; runList := ∅; tasks := ∅;
     contexts := 0; trace := [] |}.

Definition regList_Exists (key : string) : M bool :=
  λ e, Ret (taskList.Exists (regList e) key) e.
Definition regList_Get (key : string) : M (option ptr) :=
  λ e, Ret (taskList.Get (regList e) key) e.
Definition regList_Set (key : string) (val : ptr) : M unit :=
  λ e, Ret tt (with_regList (λ data, taskList.Set_ data key val) e).

Definition runList_Exists (key : string) : M bool :=
  λ e, Ret (taskList.Exists (runList e) key) e.
Definition runList_Get (key : string) : M (option ptr) :=
  λ e, Ret (taskList.Get (runList e) key) e.
Definition runList_Set (key : string) (val : ptr) : M unit :=
  λ e, Ret tt (with_trace (λ t, t ++ [RunSet key val])
                 (with_runList (λ data, taskList.Set_ data key val) e)).
Definition runList_Del (key : string) : M unit :=
  λ e, Ret tt (with_trace (λ t, t ++ [RunDel key])
                 (with_runList (λ data, taskList.Del data key) e)).

(** [Alert(e.opts.NotifyWebhook, e.opts.NotifySecret, message, true)] *)
Definition alert (message : text) : M unit :=
  λ e, emit (Alert (NotifyWebhook (opts e)) (NotifySecret (opts e)) message true) e.

(** [RegTask] *)
Definition RegTask (pattern : string) (task : TaskFunc) : M unit :=
  let* t := new {| Id := 0; Name := ""; Ext := None; Param := None;
                   fn := Some task; Cancel := None |} in
  regList_Set pattern t.

(** Lines 158-180 of [runTask]: the handler's Task is bound to the request,
    stored in the running table and started. *)
Definition admission (param : RunReq.t) : M unit :=
  let cxt := Sprintf "%s:%d" [ArgS (RunReq.ExecutorHandler param);
                              ArgD (RunReq.JobID param)] in
  let* got := regList_Get (RunReq.ExecutorHandler param) in
  let* (ext, cancel) :=
    (if decide (0 < RunReq.ExecutorTimeout param)%Z
     then WithTimeout cxt (int64 (RunReq.ExecutorTimeout param * Second))
     else WithCancel cxt) in
  let* task := deref got in
  let* t := load task in
  do store task {| Id := RunReq.JobID param;
                   Name := RunReq.ExecutorHandler param;
                   Ext := Some ext;
                   Param := Some param;
                   fn := fn t;
                   Cancel := Some cancel |} in
  let* t := load task in
  do runList_Set (Int64ToStr (Id t)) task in
  do emit (Go task) in
  emit (Write returnGeneral).

(** [runTask] *)
Definition runTask (request : Unmarshal RunReq.t) : M unit :=
  let* (param, err) := ret (json_Unmarshal RunReq.zero request) in
  if (err : bool) then
    let* param := deref param in
    emit (Write (returnCall param FailureCode "params err"))
  else
    let* param := deref param in
    let* registered := regList_Exists (RunReq.ExecutorHandler param) in
    if negb registered then
      emit (Write (returnCall param FailureCode "Task not registered"))
    else
      let* running := runList_Exists (Int64ToStr (RunReq.JobID param)) in
      if running then
        if decide (RunReq.ExecutorBlockStrategy param = coverEarly) then
          let* oldTask := runList_Get (Int64ToStr (RunReq.JobID param)) in
          do match oldTask with
             | Some oldTask =>
                 let* t := load oldTask in
                 let* cancel := deref (Cancel t) in
                 do emit (Invoke cancel) in
                 let* t := load oldTask in
                 runList_Del (Int64ToStr (Id t))
             | None => ret tt
             end in
          admission param
        else
          emit (Write (returnCall param FailureCode "There are tasks running"))
      else admission param.

(** [killTask]: the error of [json.Unmarshal] is dropped. *)
Definition killTask (request : Unmarshal killReq.t) : M unit :=
  let* (param, _) := ret (json_Unmarshal killReq.zero request) in
  let* param := deref param in
  let* running := runList_Exists (Int64ToStr (killReq.JobID param)) in
  if negb running then
    emit (Write (returnKill param FailureCode))
  else
    let* got := runList_Get (Int64ToStr (killReq.JobID param)) in
    let* task := deref got in
    let* t := load task in
    let* cancel := deref (Cancel t) in
    do emit (Invoke cancel) in
    do runList_Del (Int64ToStr (killReq.JobID param)) in
    emit (Write returnGeneral).

(** [idleBeat] *)
Definition idleBeat (request : Unmarshal idleBeatReq.t) : M unit :=
  let* (param, err) := ret (json_Unmarshal idleBeatReq.zero request) in
  if (err : bool) then
    emit (Write (returnIdleBeat FailureCode))
  else
    let* param := deref param in
    let* running := runList_Exists (Int64ToStr (idleBeatReq.JobID param)) in
    if running then
      emit (Write (returnIdleBeat FailureCode))
    else
      emit (Write returnGeneral).

(** [callback], called by the goroutine of [task] with the outcome of the
    job; [net] is what the scheduler and the network do to the post. *)
Definition callback (task : ptr) (c : code) (msg : string) (net : Response) : M unit :=
  let* t := load task in
  do runList_Del (Int64ToStr (Id t)) in
  let* param := deref (Param t) in
  do emit (Post "/api/callback" (returnCall param c msg)) in
  match net with
  | PostErr err =>
      let* t := load task in
      let* param := deref (Param t) in
      alert (Sprintf
        "task callback failed alert\ntaskID: %d\ntask name: %s\ntask params: %s\nfailed reason: %s"
        [ArgD (Id t); ArgS (Name t); ArgS (RunReq.ExecutorParams param); ArgS err])
  | Resp (ReadErr _) => ret tt
  | Resp (Body _) =>
      let lowerMsg := ToLower msg in
      if Contains lowerMsg "fail" || Contains lowerMsg "error" then
        let* t := load task in
        let* param := deref (Param t) in
        alert (Sprintf
          "task execution failed alert\ntaskID: %d\ntask name: %s\ntask params: %s\nfailed reason: %s"
          [ArgD (Id t); ArgS (Name t); ArgS (RunReq.ExecutorParams param); ArgS msg])
      else ret tt
  end.

(** The states an executor goes through: [Init], then the registrations,
    the three handlers that take [e.mu], and the callbacks of the tasks
    that were started, in any order. *)
Inductive reachable : executor → Prop :=
| reach_Init o :
    reachable (Init o)
| reach_RegTask e pattern task :
    reachable e → reachable (after (RegTask pattern task e))
| reach_runTask e request :
    reachable e → reachable (after (runTask request e))
| reach_killTask e request :
    reachable e → reachable (after (killTask request e))
| reach_idleBeat e request :
    reachable e → reachable (after (idleBeat request e))
| reach_callback e task c msg net :
    reachable e → In (Go task) (trace e) →
    reachable (after (callback task c msg net e)).

(** The Task object after the assignments of [admission]: the fields of the
    request, a new context and its cancel function; [fn] stays. *)
Definition rebound (param : RunReq.t) (t : Task) (cancel : CancelFunc) : Task :=
  {| Id := RunReq.JobID param;
     Name := RunReq.ExecutorHandler param;
     Ext := Some {| trace_id := Sprintf "%s:%d" [ArgS (RunReq.ExecutorHandler param);
                                                 ArgD (RunReq.JobID param)];
                    timeout := if decide (0 < RunReq.ExecutorTimeout param)%Z
                               then Some (int64 (RunReq.ExecutorTimeout param * Second))
                               else None |};
     Param := Some param;
     fn := fn t;
     Cancel := Some cancel |}.

(** The executor after [admission param] found the object [t] at [task] under
    the handler's name. *)
Definition started (param : RunReq.t) (task : ptr) (t : Task) (e : executor) : executor :=
  {| opts := opts e;
     regList := regList e;
     runList := <[Int64ToStr (RunReq.JobID param) := task]> (runList e);
     tasks := <[task := rebound param t (contexts e)]> (tasks e);
     contexts := S (contexts e);
     trace := trace e ++ [RunSet (Int64ToStr (RunReq.JobID param)) task;
                          Go task; Write returnGeneral] |}.

(** The executor after the [coverEarly] branch called the cancel function
    of the old Task [t] and deleted the key of its [Id]. *)
Definition covered (t : Task) (cancel : CancelFunc) (e : executor) : executor :=
  with_trace (λ tr, tr ++ [Invoke cancel; RunDel (Int64ToStr (Id t))])
    (with_runList (λ data, taskList.Del data (Int64ToStr (Id t))) e).

(** The executor after [killTask] called the cancel function and deleted
    [key]. *)
Definition killed (key : string) (cancel : CancelFunc) (e : executor) : executor :=
  with_trace (λ tr, tr ++ [Invoke cancel; RunDel key; Write returnGeneral])
    (with_runList (λ data, taskList.Del data key) e).

(** The alerts of [callback] once the post is out, by what came back. *)
Definition alerts (o : Options) (t : Task) (param : RunReq.t) (msg : string)
    (net : Response) : list event :=
  match net with
  | PostErr err =>
      [Alert (NotifyWebhook o) (NotifySecret o) (Sprintf
         "task callback failed alert\ntaskID: %d\ntask name: %s\ntask params: %s\nfailed reason: %s"
         [ArgD (Id t); ArgS (Name t); ArgS (RunReq.ExecutorParams param); ArgS err]) true]
  | Resp (ReadErr _) => []
  | Resp (Body _) =>
      if Contains (ToLower msg) "fail" || Contains (ToLower msg) "error" then
        [Alert (NotifyWebhook o) (NotifySecret o) (Sprintf
           "task execution failed alert\ntaskID: %d\ntask name: %s\ntask params: %s\nfailed reason: %s"
           [ArgD (Id t); ArgS (Name t); ArgS (RunReq.ExecutorParams param); ArgS msg]) true]
      else []
  end.

(** The executor after [callback] on the Task [t]. *)
Definition called_back (t : Task) (param : RunReq.t) (c : code) (msg : string)
    (net : Response) (e : executor) : executor :=
  with_trace (λ tr, tr ++ RunDel (Int64ToStr (Id t))
                         :: Post "/api/callback" (returnCall param c msg)
                         :: alerts (opts e) t param msg net)
    (with_runList (λ data, taskList.Del data (Int64ToStr (Id t))) e).

(** A Task that went through [admission]: it has its request and a cancel
    function. *)
Definition bound (ts : gmap ptr Task) (p : ptr) : Prop :=
  ∃ t, ts !! p = Some t ∧ is_Some (Param t) ∧ is_Some (Cancel t).

(** What the tables and the started goroutines point to. *)
Record wf (e : executor) : Prop := {
  wf_reg : ∀ key p, regList e !! key = Some p → is_Some (tasks e !! p);
  wf_run : ∀ key p, runList e !! key = Some p → bound (tasks e) p;
  wf_go : ∀ p, In (Go p) (trace e) → bound (tasks e) p
}.


(** The events a method adds to the trace of [e]. *)
Definition events {A} (m : M A) (e : executor) : list event :=
  drop (length (trace e)) (trace (after (m e))).

End executor.

(** ** One executor, two jobs on one handler *)

(** The block strategy as the scheduler sends it and the decimal text of the
    job id.  The messages of this executor are ASCII, for which [ToLower]
    does not consult the Unicode mapping; the byte-wise one stands in. *)
Definition wire : Declared :=
  {| coverEarly := "COVER_EARLY"; Int64ToStr := pretty;
     unicode_ToLower := lowerBytes |}.

Module Demo.
Section demo.
#[local] Existing Instance wire.

Definition options : Options :=
  {| ServerAddr := "http://127.0.0.1/xxl-job-admin"; AccessToken := "";
     NotifyWebhook := "hook"; NotifySecret := "secret" |}.

Definition run (id : Z) (strategy : string) : RunReq.t :=
  {| RunReq.JobID := id; RunReq.ExecutorHandler := "demoJob";
     RunReq.ExecutorParams := ""; RunReq.ExecutorBlockStrategy := strategy;
     RunReq.ExecutorTimeout := 0 |}.

(** "demoJob" is registered. *)
Definition registered : executor := after (RegTask "demoJob" 7%nat (Init options)).

(** Job 1 is started. *)
Definition one : executor := after (runTask (Value (run 1 "")) registered).

(** Job 2, on the same handler, is started while job 1 runs. *)
Definition two : executor := after (runTask (Value (run 2 "")) one).

End demo.
End Demo.

(** ** The liveness handler and what the invariants speak of *)

(** [beat]: no lock is taken and nothing is read. *)
Definition beat : M unit := emit (Write returnGeneral).


(** Every cancel function that a Task holds or that was called is one of
    the [contexts e] made so far. *)
Definition cancels_made (e : executor) : Prop :=
  (∀ p t c, tasks e !! p = Some t → Cancel t = Some c → (c < contexts e)%nat) ∧
  (∀ c, In (Invoke c) (trace e) → (c < contexts e)%nat).

(** The Tasks whose goroutines some events start, in order. *)
Definition goroutines (evs : list event) : list ptr :=
  omap (λ ev, match ev with Go task => Some task | _ => None end) evs.

(** * Properties *)

Section properties.
Context `{Declared}.

Lemma Exists_true (data : gmap string ptr) (key : string) :
  is_Some (data !! key) → taskList.Exists data key = true.
Proof. intros Hk. unfold taskList.Exists. by apply bool_decide_eq_true. Qed.

Lemma Exists_false (data : gmap string ptr) (key : string) :
  data !! key = None → taskList.Exists data key = false.
Proof.
  intros Hk. unfold taskList.Exists. apply bool_decide_eq_false.
  rewrite Hk. by intros [? ?].
Qed.

Lemma Exists_spec (data : gmap string ptr) (key : string) :
  taskList.Exists data key = true ↔ is_Some (data !! key).
Proof. unfold taskList.Exists. apply bool_decide_eq_true. Qed.

(** Unfolding one method into its reads and writes; [handler] stops at the
    call of [admission]. *)
Ltac handler :=
  cbv [runTask killTask idleBeat callback RegTask alert
       bind ret panic deref emit load store new
       regList_Exists regList_Get regList_Set
       runList_Exists runList_Get runList_Set runList_Del
       WithCancel WithTimeout json_Unmarshal after negb
       with_trace with_runList with_regList with_tasks with_contexts
       opts regList runList tasks contexts trace].

Ltac run := handler; cbv [admission]; handler.

(** ** Reachable executors are well formed *)

Lemma bound_insert (ts : gmap ptr Task) (p q : ptr) (t : Task) :
  is_Some (Param t) → is_Some (Cancel t) →
  bound ts p → bound (<[q := t]> ts) p.
Proof.
  intros HP HC (t0 & Ht0 & HP0 & HC0). unfold bound.
  destruct (decide (q = p)) as [->|Hne].
  - exists t. by rewrite lookup_insert_eq.
  - exists t0. by rewrite lookup_insert_ne.
Qed.

Lemma bound_insert_eq (ts : gmap ptr Task) (q : ptr) (t : Task) :
  is_Some (Param t) → is_Some (Cancel t) → bound (<[q := t]> ts) q.
Proof. intros HP HC. exists t. by rewrite lookup_insert_eq. Qed.

Lemma bound_is_Some (ts : gmap ptr Task) (p : ptr) :
  bound ts p → is_Some (ts !! p).
Proof. intros (t & Ht & _). by exists t. Qed.

Lemma fresh_not_Some (ts : gmap ptr Task) :
  ¬ is_Some (ts !! fresh (dom ts)).
Proof.
  intros Hs. apply elem_of_dom in Hs. by apply is_fresh in Hs.
Qed.

Lemma bound_new (ts : gmap ptr Task) (p : ptr) (t : Task) :
  bound ts p → bound (<[fresh (dom ts) := t]> ts) p.
Proof.
  intros Hb. pose proof (bound_is_Some _ _ Hb) as Hs.
  destruct Hb as (t0 & Ht0 & HP0 & HC0). exists t0.
  rewrite lookup_insert_ne; [done|].
  intros <-. by apply (fresh_not_Some ts).
Qed.

(** A state that differs only by events that start no goroutine. *)
Lemma wf_events (e : executor) (evs : list event) :
  (∀ p, ¬ In (Go p) evs) →
  wf e → wf (with_trace (λ t, t ++ evs) e).
Proof.
  intros Hno [Hreg Hrun Hgo]. split; simpl; [done|done|].
  intros p Hin. apply in_app_or in Hin as [Hin|Hin]; [by apply Hgo|].
  by destruct (Hno p).
Qed.

Lemma wf_Del (e : executor) (key : string) :
  wf e → wf (with_runList (λ data, taskList.Del data key) e).
Proof.
  intros [Hreg Hrun Hgo]. split; simpl; [done| |done].
  intros k p Hk. unfold taskList.Del in Hk.
  apply lookup_delete_Some in Hk as [_ Hk]. by eapply Hrun.
Qed.

Lemma wf_RegTask (e : executor) (pattern : string) (task : TaskFunc) :
  wf e → wf (after (RegTask pattern task e)).
Proof.
  intros [Hreg Hrun Hgo]. destruct e as [o reg run ts n tr]; simpl in *.
  split; simpl.
  - intros k p Hk. unfold taskList.Set_ in Hk.
    apply lookup_insert_Some in Hk as [[_ <-]|[_ Hk]].
    + rewrite lookup_insert_eq. by eexists.
    + destruct (decide (fresh (dom ts) = p)) as [->|Hne].
      * rewrite lookup_insert_eq. by eexists.
      * rewrite lookup_insert_ne; [|done]. by eapply Hreg.
  - intros k p Hk. apply bound_new. by eapply Hrun.
  - intros p Hin. apply bound_new. by apply Hgo.
Qed.

(** ** What each path of the handlers computes *)

Lemma admission_eq (e : executor) (param : RunReq.t) (task : ptr) (t : Task) :
  regList e !! RunReq.ExecutorHandler param = Some task →
  tasks e !! task = Some t →
  admission param e = Ret tt (started param task t e).
Proof.
  destruct e as [o reg run ts n tr]; simpl. intros Hreg Ht.
  unfold started, rebound. run. unfold taskList.Get, taskList.Set_.
  rewrite Hreg.
  destruct (decide (0 < RunReq.ExecutorTimeout param)%Z); run;
    rewrite Ht, lookup_insert_eq, <- !app_assoc; reflexivity.
Qed.

Lemma runTask_err (e : executor) (request : Unmarshal RunReq.t) :
  (json_Unmarshal RunReq.zero request).2 = true →
  ∃ param, (json_Unmarshal RunReq.zero request).1 = Some param ∧
    runTask request e =
    Ret tt (with_trace (λ t, t ++ [Write (returnCall param FailureCode "params err")]) e).
Proof.
  destruct request as [|partial| |v]; simpl; intros Herr; try discriminate.
  - by exists RunReq.zero.
  - by exists partial.
Qed.

Lemma runTask_Null (e : executor) : runTask Null e = Panic e.
Proof. reflexivity. Qed.

Lemma runTask_unregistered (e : executor) (param : RunReq.t) :
  regList e !! RunReq.ExecutorHandler param = None →
  runTask (Value param) e =
  Ret tt (with_trace (λ t, t ++ [Write (returnCall param FailureCode "Task not registered")]) e).
Proof.
  destruct e as [o reg run ts n tr]; simpl. intros Hreg.
  handler. by rewrite (Exists_false _ _ Hreg).
Qed.

Lemma runTask_idle (e : executor) (param : RunReq.t) :
  is_Some (regList e !! RunReq.ExecutorHandler param) →
  runList e !! Int64ToStr (RunReq.JobID param) = None →
  runTask (Value param) e = admission param e.
Proof.
  destruct e as [o reg run ts n tr]; simpl. intros Hreg Hrun.
  handler. rewrite (Exists_true _ _ Hreg). handler.
  by rewrite (Exists_false _ _ Hrun).
Qed.

Lemma runTask_discard (e : executor) (param : RunReq.t) :
  is_Some (regList e !! RunReq.ExecutorHandler param) →
  is_Some (runList e !! Int64ToStr (RunReq.JobID param)) →
  RunReq.ExecutorBlockStrategy param ≠ coverEarly →
  runTask (Value param) e =
  Ret tt (with_trace (λ t, t ++ [Write (returnCall param FailureCode "There are tasks running")]) e).
Proof.
  destruct e as [o reg run ts n tr]; simpl. intros Hreg Hrun Hne.
  handler. rewrite (Exists_true _ _ Hreg). handler.
  rewrite (Exists_true _ _ Hrun). by destruct (decide _).
Qed.

Lemma runTask_coverEarly (e : executor) (param : RunReq.t) (oldTask : ptr)
    (t : Task) (cancel : CancelFunc) :
  is_Some (regList e !! RunReq.ExecutorHandler param) →
  runList e !! Int64ToStr (RunReq.JobID param) = Some oldTask →
  tasks e !! oldTask = Some t →
  Cancel t = Some cancel →
  RunReq.ExecutorBlockStrategy param = coverEarly →
  runTask (Value param) e = admission param (covered t cancel e).
Proof.
  destruct e as [o reg run ts n tr]; simpl. intros Hreg Hrun Ht Hc Hcover.
  unfold covered. handler. rewrite (Exists_true _ _ Hreg). handler.
  rewrite (Exists_true _ _ (mk_is_Some _ _ Hrun)).
  destruct (decide _) as [_|]; [|done].
  handler. unfold taskList.Get. rewrite Hrun. handler. rewrite Ht, Hc.
  handler. rewrite Ht. by rewrite <- !app_assoc.
Qed.

Lemma killTask_Null (e : executor) : killTask Null e = Panic e.
Proof. reflexivity. Qed.

Lemma killTask_absent (e : executor) (request : Unmarshal killReq.t) (param : killReq.t) :
  (json_Unmarshal killReq.zero request).1 = Some param →
  runList e !! Int64ToStr (killReq.JobID param) = None →
  killTask request e =
  Ret tt (with_trace (λ t, t ++ [Write (returnKill param FailureCode)]) e).
Proof.
  destruct e as [o reg run ts n tr]. simpl. intros Hparam Hrun.
  destruct request; simpl in Hparam; simplify_eq; handler;
    by rewrite (Exists_false _ _ Hrun).
Qed.

Lemma killTask_present (e : executor) (request : Unmarshal killReq.t)
    (param : killReq.t) (task : ptr) (t : Task) (cancel : CancelFunc) :
  (json_Unmarshal killReq.zero request).1 = Some param →
  runList e !! Int64ToStr (killReq.JobID param) = Some task →
  tasks e !! task = Some t →
  Cancel t = Some cancel →
  killTask request e = Ret tt (killed (Int64ToStr (killReq.JobID param)) cancel e).
Proof.
  destruct e as [o reg run ts n tr]. simpl. intros Hparam Hrun Ht Hc.
  destruct request; simpl in Hparam; simplify_eq; unfold killed; handler;
    rewrite (Exists_true _ _ (mk_is_Some _ _ Hrun)); handler;
    unfold taskList.Get; rewrite Hrun; handler; rewrite Ht, Hc; handler;
    by rewrite <- !app_assoc.
Qed.

Lemma callback_eq (e : executor) (task : ptr) (t : Task) (param : RunReq.t)
    (c : code) (msg : string) (net : Response) :
  tasks e !! task = Some t →
  Param t = Some param →
  callback task c msg net e = Ret tt (called_back t param c msg net e).
Proof.
  destruct e as [o reg run ts n tr]. simpl. intros Ht Hp.
  unfold called_back, alerts. handler. rewrite Ht. handler. rewrite Hp. handler.
  destruct net as [err|[err|body]]; handler.
  - rewrite Ht, Hp. handler. by rewrite <- !app_assoc.
  - by rewrite <- !app_assoc.
  - destruct (Contains (ToLower msg) "fail" || Contains (ToLower msg) "error");
      handler; [rewrite Ht, Hp; handler|]; by rewrite <- !app_assoc.
Qed.

(** ** Every method keeps the executor well formed *)

Lemma wf_covered (e : executor) (t : Task) (cancel : CancelFunc) :
  wf e → wf (covered t cancel e).
Proof.
  intros Hwf. unfold covered. apply wf_events; [|by apply wf_Del].
  intros p [Hp|[Hp|[]]]; discriminate.
Qed.

Lemma wf_started (e : executor) (param : RunReq.t) (task : ptr) (t : Task) :
  wf e → wf (started param task t e).
Proof.
  intros [Hreg Hrun Hgo]. split; simpl.
  - intros k p Hk. apply lookup_insert_is_Some'. right. by eapply Hreg.
  - intros k p Hk. apply lookup_insert_Some in Hk as [[_ <-]|[_ Hk]].
    + by apply bound_insert_eq.
    + apply bound_insert; [done|done|]. by eapply Hrun.
  - intros p Hin. apply in_app_or in Hin as [Hin|Hin].
    + apply bound_insert; [done|done|]. by apply Hgo.
    + destruct Hin as [Hp|[Hp|[Hp|[]]]]; try discriminate.
      injection Hp as ->. by apply bound_insert_eq.
Qed.

Lemma wf_admission (e : executor) (param : RunReq.t) :
  is_Some (regList e !! RunReq.ExecutorHandler param) →
  wf e → wf (after (admission param e)).
Proof.
  intros [task Hreg] Hwf.
  destruct (wf_reg e Hwf _ _ Hreg) as [t Ht].
  rewrite (admission_eq e param task t Hreg Ht). by apply wf_started.
Qed.

Lemma wf_reply (e : executor) (r : reply) :
  wf e → wf (with_trace (λ t, t ++ [Write r]) e).
Proof. intros Hwf. apply wf_events; [|done]. intros p [Hp|[]]; discriminate. Qed.

Lemma wf_runTask (e : executor) (request : Unmarshal RunReq.t) :
  wf e → wf (after (runTask request e)).
Proof.
  intros Hwf.
  destruct (decide ((json_Unmarshal RunReq.zero request).2 = true)) as [Herr|Herr].
  { destruct (runTask_err e request Herr) as (param & _ & ->). by apply wf_reply. }
  destruct request as [|partial| |param]; simpl in Herr; try done.
  destruct (regList e !! RunReq.ExecutorHandler param) as [task|] eqn:Hreg.
  2: { rewrite runTask_unregistered by done. by apply wf_reply. }
  destruct (runList e !! Int64ToStr (RunReq.JobID param)) as [oldTask|] eqn:Hrun.
  2: { rewrite runTask_idle by done. by apply wf_admission. }
  destruct (decide (RunReq.ExecutorBlockStrategy param = coverEarly)) as [Hc|Hc].
  2: { rewrite runTask_discard by done. by apply wf_reply. }
  destruct (wf_run e Hwf _ _ Hrun) as (t & Ht & _ & [cancel Hcancel]).
  rewrite (runTask_coverEarly e param oldTask t cancel) by done.
  apply wf_admission; [simpl; by rewrite Hreg|by apply wf_covered].
Qed.

Lemma wf_killTask (e : executor) (request : Unmarshal killReq.t) :
  wf e → wf (after (killTask request e)).
Proof.
  intros Hwf.
  destruct ((json_Unmarshal killReq.zero request).1) as [param|] eqn:Hparam.
  2: { by destruct request. }
  destruct (runList e !! Int64ToStr (killReq.JobID param)) as [task|] eqn:Hrun.
  2: { rewrite (killTask_absent e request param) by done. by apply wf_reply. }
  destruct (wf_run e Hwf _ _ Hrun) as (t & Ht & _ & [cancel Hcancel]).
  rewrite (killTask_present e request param task t cancel) by done.
  unfold killed. apply wf_events; [|by apply wf_Del].
  intros p [Hp|[Hp|[Hp|[]]]]; discriminate.
Qed.

Lemma idleBeat_state (e : executor) (request : Unmarshal idleBeatReq.t) :
  ∃ evs, after (idleBeat request e) = with_trace (λ t, t ++ evs) e ∧
         ∀ ev, In ev evs → ∃ r, ev = Write r.
Proof.
  destruct e as [o reg run ts n tr].
  destruct request as [|partial| |param]; handler.
  - eexists [_]. split; [done|]. intros ev [<-|[]]. by eexists.
  - eexists [_]. split; [done|]. intros ev [<-|[]]. by eexists.
  - exists []. split; [by rewrite app_nil_r|]. by intros ev [].
  - destruct (taskList.Exists _ _); handler;
      (eexists [_]; split; [done|]; intros ev [<-|[]]; by eexists).
Qed.

Lemma wf_idleBeat (e : executor) (request : Unmarshal idleBeatReq.t) :
  wf e → wf (after (idleBeat request e)).
Proof.
  intros Hwf. destruct (idleBeat_state e request) as (evs & -> & Hevs).
  apply wf_events; [|done]. intros p Hin. by destruct (Hevs _ Hin).
Qed.

Lemma alerts_Alert (o : Options) (t : Task) (param : RunReq.t) (msg : string)
    (net : Response) (ev : event) :
  In ev (alerts o t param msg net) → ∃ w s m b, ev = Alert w s m b.
Proof.
  unfold alerts. destruct net as [err|[err|body]]; [|by intros []|].
  - intros [<-|[]]. by do 4 eexists.
  - destruct (_ || _); [|by intros []]. intros [<-|[]]. by do 4 eexists.
Qed.

Lemma wf_callback (e : executor) (task : ptr) (c : code) (msg : string)
    (net : Response) :
  bound (tasks e) task → wf e → wf (after (callback task c msg net e)).
Proof.
  intros (t & Ht & [param Hp] & _) Hwf.
  rewrite (callback_eq e task t param) by done.
  unfold called_back. apply wf_events; [|by apply wf_Del].
  intros p [Hp'|[Hp'|Hin]]; try discriminate.
  by destruct (alerts_Alert _ _ _ _ _ _ Hin) as (? & ? & ? & ? & ?).
Qed.

Lemma wf_Init (o : Options) : wf (Init o).
Proof. split; simpl; [by intros ?? ?%lookup_empty_Some..|by intros ? []]. Qed.

Theorem reachable_wf (e : executor) : reachable e → wf e.
Proof.
  induction 1 as [o|e pattern task _ IH|e request _ IH|e request _ IH
                  |e request _ IH|e task c msg net _ IH Hgo].
  - apply wf_Init.
  - by apply wf_RegTask.
  - by apply wf_runTask.
  - by apply wf_killTask.
  - by apply wf_idleBeat.
  - apply wf_callback; [by apply (wf_go e IH)|done].
Qed.

(** ** The table and the trace *)




Lemma events_eq {A} (m : M A) (e : executor) (evs : list event) :
  trace (after (m e)) = trace e ++ evs → events m e = evs.
Proof. intros Ht. unfold events. rewrite Ht. apply drop_app_length. Qed.

Lemma runTask_coverEarly_state (e : executor) (param : RunReq.t)
    (task oldTask : ptr) (t old : Task) (cancel : CancelFunc) :
  regList e !! RunReq.ExecutorHandler param = Some task →
  tasks e !! task = Some t →
  runList e !! Int64ToStr (RunReq.JobID param) = Some oldTask →
  tasks e !! oldTask = Some old →
  Cancel old = Some cancel →
  RunReq.ExecutorBlockStrategy param = coverEarly →
  runTask (Value param) e = Ret tt (started param task t (covered old cancel e)).
Proof.
  intros Hreg Ht Hrun Hold Hc Hcover.
  rewrite (runTask_coverEarly e param oldTask old cancel) by done.
  by apply admission_eq.
Qed.

(** ** Admission *)


(** C4. A decoded run request whose job id is in the running table, under
    any block strategy but [coverEarly], is answered with a failure reply,
    the conflict one "There are tasks running" when the handler is
    registered, and that reply is all the handler does: no cancel function
    is called and both tables and the Task objects stay as they were. *)
Theorem C4_discard_leaves_state (e : executor) (param : RunReq.t) :
  is_Some (runList e !! Int64ToStr (RunReq.JobID param)) →
  RunReq.ExecutorBlockStrategy param ≠ coverEarly →
  let msg := if taskList.Exists (regList e) (RunReq.ExecutorHandler param)
             then "There are tasks running" else "Task not registered" in
  runTask (Value param) e =
    Ret tt (with_trace (λ t, t ++ [Write (returnCall param FailureCode msg)]) e) ∧
  events (runTask (Value param)) e = [Write (returnCall param FailureCode msg)] ∧
  reply_code (returnCall param FailureCode msg) = FailureCode ∧
  runList (after (runTask (Value param) e)) = runList e ∧
  tasks (after (runTask (Value param) e)) = tasks e.
Proof.
  intros Hrun Hne msg.
  assert (runTask (Value param) e =
          Ret tt (with_trace (λ t, t ++ [Write (returnCall param FailureCode msg)]) e))
    as Hrt.
  { unfold msg.
    destruct (regList e !! RunReq.ExecutorHandler param) as [task|] eqn:Hreg.
    - rewrite Exists_true by (by rewrite Hreg).
      apply runTask_discard; [by rewrite Hreg|done|done].
    - rewrite Exists_false by done. by apply runTask_unregistered. }
  rewrite Hrt. repeat split. apply events_eq. by rewrite Hrt.
Qed.

(** C9. A run request whose body does not decode, or whose handler name is
    not registered, is answered with a failure reply built by [returnCall],
    and that reply is all the handler does: no cancel function is called, no
    key is set or deleted, and the tables and Task objects stay as they
    were. *)
Theorem C9_run_rejected (e : executor) (request : Unmarshal RunReq.t) :
  (json_Unmarshal RunReq.zero request).2 = true ∨
  (∃ param, request = Value param ∧
            regList e !! RunReq.ExecutorHandler param = None) →
  ∃ param msg,
    runTask request e =
      Ret tt (with_trace (λ t, t ++ [Write (returnCall param FailureCode msg)]) e) ∧
    events (runTask request) e = [Write (returnCall param FailureCode msg)] ∧
    reply_code (returnCall param FailureCode msg) = FailureCode ∧
    runList (after (runTask request e)) = runList e ∧
    tasks (after (runTask request e)) = tasks e.
Proof.
  intros [Herr|(param & -> & Hreg)].
  - destruct (runTask_err e request Herr) as (param & _ & Heq).
    exists param, "params err". rewrite Heq. repeat split.
    apply events_eq. by rewrite Heq.
  - exists param, "Task not registered".
    pose proof (runTask_unregistered e param Hreg) as Hrt.
    rewrite Hrt. repeat split. apply events_eq. by rewrite Hrt.
Qed.

(** ** Idle beat *)

Lemma idleBeat_Value (e : executor) (param : idleBeatReq.t) :
  idleBeat (Value param) e =
  Ret tt (with_trace (λ t, t ++ [Write
    (if taskList.Exists (runList e) (Int64ToStr (idleBeatReq.JobID param))
     then returnIdleBeat FailureCode else returnGeneral)]) e).
Proof.
  destruct e. handler.
  by destruct (taskList.Exists _ _).
Qed.

(** C6. [idleBeat] for a job id writes one reply, whose code is the failure
    code exactly when the running table has the key of that id, and the
    success code exactly when it has not; whatever the body of the request,
    [idleBeat] leaves the running table as it was. *)
Theorem C6_idleBeat (e : executor) :
  (∀ param : idleBeatReq.t, ∃ r,
     idleBeat (Value param) e = Ret tt (with_trace (λ t, t ++ [Write r]) e) ∧
     (reply_code r = FailureCode ↔
      is_Some (runList e !! Int64ToStr (idleBeatReq.JobID param))) ∧
     (reply_code r = SuccessCode ↔
      runList e !! Int64ToStr (idleBeatReq.JobID param) = None)) ∧
  (∀ request, runList (after (idleBeat request e)) = runList e).
Proof.
  split.
  - intros param. eexists. split; [apply idleBeat_Value|].
    destruct (taskList.Exists _ _) eqn:Hex; simpl.
    + apply Exists_spec in Hex. split; [done|].
      split; [done|]. intros Hnone. rewrite Hnone in Hex. by destruct Hex.
    + split.
      * split; [done|]. intros Hs%Exists_spec. congruence.
      * split; [|done]. intros _.
        destruct (runList e !! _) eqn:Hl; [|done].
        rewrite Exists_true in Hex; [done|by rewrite Hl].
  - intros request. by destruct (idleBeat_state e request) as (evs & -> & _).
Qed.

(** The Task that [runTask] puts in the running table is the object the
    handler was registered with: the key of the job id and the name of the
    handler lead to one and the same pointer, whose fields are now those of
    this request. *)
Lemma runTask_stores_registered (e : executor) (param : RunReq.t) (task : ptr) :
  reachable e →
  regList e !! RunReq.ExecutorHandler param = Some task →
  runList e !! Int64ToStr (RunReq.JobID param) = None ∨
    RunReq.ExecutorBlockStrategy param = coverEarly →
  let e' := after (runTask (Value param) e) in
  runList e' !! Int64ToStr (RunReq.JobID param) = Some task ∧
  regList e' !! RunReq.ExecutorHandler param = Some task ∧
  ∃ t, tasks e' !! task = Some t ∧ Id t = RunReq.JobID param ∧
       Param t = Some param ∧ Cancel t = Some (contexts e).
Proof.
  intros Hwf%reachable_wf Hreg Hadm.
  destruct (wf_reg e Hwf _ _ Hreg) as [t Ht].
  assert (∃ e0, runTask (Value param) e = Ret tt (started param task t e0) ∧
                regList e0 = regList e ∧ contexts e0 = contexts e)
    as (e0 & Hrt & Hreg0 & Hctx).
  { destruct (runList e !! Int64ToStr (RunReq.JobID param)) as [oldTask|] eqn:Hrun.
    - destruct Hadm as [?|Hc]; [done|].
      destruct (wf_run e Hwf _ _ Hrun) as (old & Hold & _ & [cancel Hcancel]).
      exists (covered old cancel e). split; [|done].
      by apply (runTask_coverEarly_state e param task oldTask t old cancel).
    - exists e. split; [|done].
      rewrite runTask_idle by (by rewrite ?Hreg). by apply admission_eq. }
  simpl. rewrite Hrt. simpl. rewrite Hreg0, Hctx.
  split; [by rewrite lookup_insert_eq|]. split; [done|].
  eexists. by rewrite lookup_insert_eq.
Qed.

(** When the Task found under the key still carries the job id of the
    request, [coverEarly] deletes that very key before it sets it again. *)
Lemma runTask_coverEarly_own_key (e : executor) (param : RunReq.t)
    (task oldTask : ptr) (old : Task) :
  reachable e →
  regList e !! RunReq.ExecutorHandler param = Some task →
  runList e !! Int64ToStr (RunReq.JobID param) = Some oldTask →
  tasks e !! oldTask = Some old →
  Id old = RunReq.JobID param →
  RunReq.ExecutorBlockStrategy param = coverEarly →
  ∃ cancel, Cancel old = Some cancel ∧
    events (runTask (Value param)) e =
      [Invoke cancel; RunDel (Int64ToStr (RunReq.JobID param));
       RunSet (Int64ToStr (RunReq.JobID param)) task; Go task;
       Write returnGeneral].
Proof.
  intros Hwf%reachable_wf Hreg Hrun Hold Hid Hc.
  destruct (wf_run e Hwf _ _ Hrun) as (old' & Hold' & _ & [cancel Hcancel]).
  assert (old' = old) as -> by congruence.
  destruct (wf_reg e Hwf _ _ Hreg) as [t Ht].
  exists cancel. split; [done|]. apply events_eq.
  rewrite (runTask_coverEarly_state e param task oldTask t old cancel) by done.
  simpl. by rewrite Hid, <- app_assoc.
Qed.

(** ** Kill *)

(** [killTask] by what the running table holds.  A kill request that leaves
    a [param] (any body but the literal null): when the key of its job id is
    not in the running table, the handler writes the failure reply and
    changes nothing; when the key is there, the handler calls the cancel
    function that the Task object stored under it holds at that moment,
    deletes the key, once, and writes the success reply.  Whose cancel
    function that is depends on who bound the object last. *)
Lemma killTask_by_table (e : executor) (request : Unmarshal killReq.t)
    (param : killReq.t) :
  reachable e →
  (json_Unmarshal killReq.zero request).1 = Some param →
  let key := Int64ToStr (killReq.JobID param) in
  match runList e !! key with
  | None =>
      killTask request e =
        Ret tt (with_trace (λ t, t ++ [Write (returnKill param FailureCode)]) e) ∧
      reply_code (returnKill param FailureCode) = FailureCode ∧
      runList (after (killTask request e)) = runList e
  | Some task =>
      ∃ t cancel,
        tasks e !! task = Some t ∧ Cancel t = Some cancel ∧
        killTask request e = Ret tt (killed key cancel e) ∧
        events (killTask request) e = [Invoke cancel; RunDel key; Write returnGeneral] ∧
        reply_code returnGeneral = SuccessCode ∧
        runList (after (killTask request e)) = taskList.Del (runList e) key ∧
        runList (after (killTask request e)) !! key = None
  end.
Proof.
  intros Hwf%reachable_wf Hparam key.
  destruct (runList e !! key) as [task|] eqn:Hrun.
  - destruct (wf_run e Hwf _ _ Hrun) as (t & Ht & _ & [cancel Hcancel]).
    exists t, cancel.
    pose proof (killTask_present e request param task t cancel
                  Hparam Hrun Ht Hcancel) as Hk.
    rewrite Hk. repeat split; try done.
    + apply events_eq. by rewrite Hk.
    + simpl. apply lookup_delete_eq.
  - rewrite (killTask_absent e request param) by done. done.
Qed.

(** C10. [killTask] drops the error of [json.Unmarshal]: a body that is not
    JSON leaves [param] zero-valued, so the request is handled as the kill
    of job id 0.  It gets the failure reply when the key of 0 is not in the
    running table; when it is, the Task under it is cancelled and the key is
    deleted. *)
Theorem C10_kill_malformed (e : executor) :
  reachable e →
  let key := Int64ToStr 0 in
  killTask SyntaxError e = killTask (Value {| killReq.JobID := 0 |}) e ∧
  match runList e !! key with
  | None =>
      killTask SyntaxError e =
        Ret tt (with_trace (λ t, t ++ [Write (returnKill {| killReq.JobID := 0 |}
                                                FailureCode)]) e)
  | Some task =>
      ∃ t cancel,
        tasks e !! task = Some t ∧ Cancel t = Some cancel ∧
        killTask SyntaxError e = Ret tt (killed key cancel e) ∧
        events (killTask SyntaxError) e = [Invoke cancel; RunDel key; Write returnGeneral] ∧
        runList (after (killTask SyntaxError e)) !! key = None
  end.
Proof.
  intros Hwf%reachable_wf key. split; [done|].
  destruct (runList e !! key) as [task|] eqn:Hrun.
  - destruct (wf_run e Hwf _ _ Hrun) as (t & Ht & _ & [cancel Hcancel]).
    exists t, cancel.
    pose proof (killTask_present e SyntaxError killReq.zero task t cancel
                  eq_refl Hrun Ht Hcancel) as Hk.
    rewrite Hk. repeat split; try done.
    + apply events_eq. by rewrite Hk.
    + simpl. apply lookup_delete_eq.
  - by apply (killTask_absent e SyntaxError killReq.zero).
Qed.

(** ** Callback *)

Lemma callback_events (e : executor) (task : ptr) (t : Task) (param : RunReq.t)
    (c : code) (msg : string) (net : Response) :
  tasks e !! task = Some t →
  Param t = Some param →
  events (callback task c msg net) e =
    RunDel (Int64ToStr (Id t)) :: Post "/api/callback" (returnCall param c msg)
      :: alerts (opts e) t param msg net.
Proof.
  intros Ht Hp. apply events_eq. by rewrite (callback_eq e task t param).
Qed.

(** The two paths of [callback] that do alert on a failure marker: the post
    failed, or the response was read. *)
Lemma callback_alerts_marker (e : executor) (task : ptr) (t : Task)
    (param : RunReq.t) (c : code) (msg : string) (net : Response) :
  tasks e !! task = Some t →
  Param t = Some param →
  Contains (ToLower msg) "fail" || Contains (ToLower msg) "error" = true →
  (∀ err, net ≠ Resp (ReadErr err)) →
  ∃ content,
    In (Alert (NotifyWebhook (opts e)) (NotifySecret (opts e)) content true)
       (events (callback task c msg net) e).
Proof.
  intros Ht Hp Hmark Hnet. rewrite (callback_events e task t param) by done.
  destruct net as [err|[err|body]]; simpl.
  - eexists. right. right. by left.
  - by destruct (Hnet err).
  - rewrite Hmark. eexists. right. right. by left.
Qed.

(** The path that does not: the post went out and reading the response
    failed. *)
Lemma callback_ReadErr_events (e : executor) (task : ptr) (t : Task)
    (param : RunReq.t) (c : code) (msg err : string) :
  tasks e !! task = Some t →
  Param t = Some param →
  events (callback task c msg (Resp (ReadErr err))) e =
    [RunDel (Int64ToStr (Id t)); Post "/api/callback" (returnCall param c msg)].
Proof. intros Ht Hp. by rewrite (callback_events e task t param). Qed.

(** [callback] by the [Id] that the Task object holds when it is called:
    [callback] first deletes the key of that [Id] from the running table and
    then posts the record of the object's [Param], once; that key is gone
    whatever becomes of the post.  When the post fails, one alert follows
    and [callback] returns: nothing is posted again and nothing else
    changes.  Which job's key and record these are depends on who bound the
    object last. *)
Lemma callback_by_Id (e : executor) (task : ptr) :
  reachable e →
  In (Go task) (trace e) →
  ∃ t param,
    tasks e !! task = Some t ∧ Param t = Some param ∧
    let key := Int64ToStr (Id t) in
    (∀ c msg net, ∃ e' rest,
       callback task c msg net e = Ret tt e' ∧
       events (callback task c msg net) e =
         RunDel key :: Post "/api/callback" (returnCall param c msg) :: rest ∧
       Forall (λ ev, ∃ w s m b, ev = Alert w s m b) rest ∧
       runList e' = taskList.Del (runList e) key ∧
       runList e' !! key = None ∧
       regList e' = regList e ∧ tasks e' = tasks e) ∧
    (∀ c msg err, ∃ content,
       events (callback task c msg (PostErr err)) e =
         [RunDel key; Post "/api/callback" (returnCall param c msg);
          Alert (NotifyWebhook (opts e)) (NotifySecret (opts e)) content true]).
Proof.
  intros Hwf%reachable_wf Hgo.
  destruct (wf_go e Hwf _ Hgo) as (t & Ht & [param Hp] & _).
  exists t, param. split; [done|]. split; [done|].
  intros key. split.
  - intros c msg net.
    exists (called_back t param c msg net e), (alerts (opts e) t param msg net).
    split; [by apply callback_eq|].
    split; [by apply callback_events|].
    split; [apply Forall_forall; intros ev ?%list_elem_of_In; by eapply alerts_Alert|].
    repeat split. simpl. apply lookup_delete_eq.
  - intros c msg err. eexists.
    by rewrite (callback_events e task t param).
Qed.

End properties.

(** * Two jobs on one handler *)

Section two_jobs.
#[local] Existing Instance wire.

Lemma registered_reachable : reachable Demo.registered.
Proof. apply reach_RegTask, reach_Init. Qed.

Lemma one_reachable : reachable Demo.one.
Proof. apply reach_runTask, registered_reachable. Qed.

Lemma two_reachable : reachable Demo.two.
Proof. apply reach_runTask, one_reachable. Qed.

(** C2. With "demoJob" registered once and jobs 1 and 2 started on it, the
    keys "1" and "2" of the running table and the name "demoJob" of the
    registry all hold one pointer: there is one Task object.  The admission
    of job 2 overwrote its [Id], [Param] and [Cancel], so the entry of job 1
    now shows the id, the request and the cancel function of job 2, and the
    cancel function made for job 1 is held nowhere. *)
Theorem C2_one_task_for_two_jobs :
  reachable Demo.two ∧
  regList Demo.two !! "demoJob" = Some 0%nat ∧
  runList Demo.two !! "1" = Some 0%nat ∧
  runList Demo.two !! "2" = Some 0%nat ∧
  size (tasks Demo.two) = 1%nat ∧
  Cancel <$> tasks Demo.one !! 0%nat = Some (Some 0%nat) ∧
  Id <$> tasks Demo.two !! 0%nat = Some 2%Z ∧
  Param <$> tasks Demo.two !! 0%nat = Some (Some (Demo.run 2 "")) ∧
  Cancel <$> tasks Demo.two !! 0%nat = Some (Some 1%nat).
Proof. split; [apply two_reachable|]. vm_compute. repeat split. Qed.

(** C3. Jobs 1 and 2 run on "demoJob" and job 1 is run again with
    [coverEarly].  The Task found under "1" carries the [Id] and the cancel
    function of job 2, so the handler cancels job 2 and deletes the key "2";
    the entry under "1" is still in the table when the new Task is set
    there, and the cancel function made for job 1 (number 0) is not
    called. *)
Theorem C3_coverEarly_deletes_other_job :
  let request := Value (Demo.run 1 "COVER_EARLY") in
  reachable Demo.two ∧
  runList Demo.two !! "1" = Some 0%nat ∧
  runList Demo.two !! "2" = Some 0%nat ∧
  events (runTask request) Demo.two =
    [Invoke 1%nat; RunDel "2"; RunSet "1" 0%nat; Go 0%nat; Write returnGeneral] ∧
  taskList.Del (runList Demo.two) "2" !! "1" = Some 0%nat ∧
  runList (after (runTask request Demo.two)) !! "2" = None.
Proof. split; [apply two_reachable|]. vm_compute. repeat split. Qed.

(** C7. Job 1 ends with the message "task failed", the post of the callback
    goes out and reading the response fails: [callback] deletes the key,
    posts, and returns.  No alert is sent, although the message has the
    marker "fail". *)
Theorem C7_no_alert_when_response_unread :
  let done := callback 0%nat FailureCode "task failed" (Resp (ReadErr "unexpected EOF")) in
  reachable Demo.one ∧
  In (Go 0%nat) (trace Demo.one) ∧
  Contains (ToLower "task failed") "fail" = true ∧
  events done Demo.one =
    [RunDel "1";
     Post "/api/callback" (returnCall (Demo.run 1 "") FailureCode "task failed")] ∧
  ∀ w s m b, ¬ In (Alert w s m b) (events done Demo.one).
Proof.
  split; [apply one_reachable|]. split; [vm_compute; tauto|].
  split; [reflexivity|]. split; [reflexivity|].
  intros w s m b [Hin|[Hin|[]]]; discriminate.
Qed.

(** C5. Jobs 1 and 2 run on "demoJob" and job 1 is killed.  The Task found
    under "1" is the object both jobs share and holds the cancel function of
    job 2 (number 1): the handler calls that one, deletes the key "1" and
    writes the success reply.  The cancel function made for job 1 (number 0)
    is not called, so job 1 runs on, and job 2, whose context was cancelled,
    still has its entry. *)
Theorem C5_kill_cancels_other_job :
  let request := Value {| killReq.JobID := 1 |} in
  let e' := after (killTask request Demo.two) in
  reachable Demo.two ∧
  runList Demo.two !! "1" = Some 0%nat ∧
  runList Demo.two !! "2" = Some 0%nat ∧
  Cancel <$> tasks Demo.one !! 0%nat = Some (Some 0%nat) ∧
  Cancel <$> tasks Demo.two !! 0%nat = Some (Some 1%nat) ∧
  events (killTask request) Demo.two =
    [Invoke 1%nat; RunDel "1"; Write returnGeneral] ∧
  reply_code returnGeneral = SuccessCode ∧
  ¬ In (Invoke 0%nat) (trace e') ∧
  runList e' !! "1" = None ∧
  runList e' !! "2" = Some 0%nat.
Proof.
  intros request e'. split; [apply two_reachable|].
  do 6 (split; [reflexivity|]).
  split; [|split; reflexivity].
  vm_compute. intros Hin.
  repeat (destruct Hin as [Hin|Hin]; [discriminate|]). exact Hin.
Qed.

(** C8. Jobs 1 and 2 run on "demoJob", each in a goroutine of its own on the
    one Task object, and both end.  Each of the two calls of [callback]
    reads the [Id] and the [Param] that the object holds, those of job 2:
    it deletes the key "2" and posts the record of job 2.  The entry of
    job 1 is still in the running table when both jobs have ended, and no
    record of job 1 was posted. *)
Theorem C8_callback_removes_other_job :
  let ended msg := callback 0%nat SuccessCode msg (Resp (Body "")) in
  let e1 := after (ended "first" Demo.two) in
  let e2 := after (ended "second" e1) in
  reachable e2 ∧
  trace Demo.two = [RunSet "1" 0%nat; Go 0%nat; Write returnGeneral;
                    RunSet "2" 0%nat; Go 0%nat; Write returnGeneral] ∧
  runList Demo.two !! "1" = Some 0%nat ∧
  runList Demo.two !! "2" = Some 0%nat ∧
  events (ended "first") Demo.two =
    [RunDel "2";
     Post "/api/callback" (returnCall (Demo.run 2 "") SuccessCode "first")] ∧
  events (ended "second") e1 =
    [RunDel "2";
     Post "/api/callback" (returnCall (Demo.run 2 "") SuccessCode "second")] ∧
  runList e1 !! "1" = Some 0%nat ∧
  runList e2 !! "1" = Some 0%nat ∧
  ∀ c msg,
    ¬ In (Post "/api/callback" (returnCall (Demo.run 1 "") c msg)) (trace e2).
Proof.
  intros ended e1 e2.
  assert (reachable e1) as Hr1.
  { apply reach_callback; [apply two_reachable|]. vm_compute. tauto. }
  split; [apply reach_callback; [exact Hr1|]; vm_compute; tauto|].
  do 7 (split; [reflexivity|]).
  intros c msg. vm_compute. intros Hin.
  repeat (destruct Hin as [Hin|Hin]; [discriminate|]). exact Hin.
Qed.

(** ** The theorems at work on this executor *)


Lemma C4_witness :
  let param := Demo.run 1 "DISCARD_LATER" in
  let e := Demo.one in
  let msg := "There are tasks running" in
  runTask (Value param) e =
    Ret tt (with_trace (λ t, t ++ [Write (returnCall param FailureCode msg)]) e) ∧
  events (runTask (Value param)) e = [Write (returnCall param FailureCode msg)] ∧
  reply_code (returnCall param FailureCode msg) = FailureCode ∧
  runList (after (runTask (Value param) e)) = runList e ∧
  tasks (after (runTask (Value param) e)) = tasks e.
Proof.
  intros param e. apply (C4_discard_leaves_state e param).
  - eexists. vm_compute. reflexivity.
  - vm_compute. discriminate.
Defined.

Lemma C9_witness :
  let request := Value {| RunReq.JobID := 3; RunReq.ExecutorHandler := "noSuchJob";
                          RunReq.ExecutorParams := "";
                          RunReq.ExecutorBlockStrategy := "COVER_EARLY";
                          RunReq.ExecutorTimeout := 0 |} in
  let e := Demo.two in
  ∃ param msg,
    runTask request e =
      Ret tt (with_trace (λ t, t ++ [Write (returnCall param FailureCode msg)]) e) ∧
    events (runTask request) e = [Write (returnCall param FailureCode msg)] ∧
    reply_code (returnCall param FailureCode msg) = FailureCode ∧
    runList (after (runTask request e)) = runList e ∧
    tasks (after (runTask request e)) = tasks e.
Proof.
  intros request e. apply (C9_run_rejected e request).
  right. eexists. split; [reflexivity|]. vm_compute. reflexivity.
Defined.

Lemma C10_witness :
  let e := Demo.two in
  killTask SyntaxError e = killTask (Value {| killReq.JobID := 0 |}) e ∧
  killTask SyntaxError e =
    Ret tt (with_trace (λ t, t ++ [Write (returnKill {| killReq.JobID := 0 |}
                                            FailureCode)]) e).
Proof.
  intros e. apply (C10_kill_malformed e two_reachable).
Defined.

End two_jobs.

(** * Further properties of the executor *)

Section further.
Context `{Declared}.

Ltac handler :=
  cbv [runTask killTask idleBeat callback RegTask alert beat
       bind ret panic deref emit load store new
       regList_Exists regList_Get regList_Set
       runList_Exists runList_Get runList_Set runList_Del
       WithCancel WithTimeout json_Unmarshal after negb
       with_trace with_runList with_regList with_tasks with_contexts
       opts regList runList tasks contexts trace].

Ltac run := handler; cbv [admission]; handler.

(** Going down every path of a method. *)
Ltac paths :=
  repeat (run;
          match goal with
          | |- context [match ?x with _ => _ end] =>
              lazymatch x with
              | context [match _ with _ => _ end] => fail
              | _ => destruct x eqn:?
              end
          end);
  run.

(** ** What a method leaves alone *)

Lemma runTask_regList (e : executor) (request : Unmarshal RunReq.t) :
  regList (after (runTask request e)) = regList e.
Proof. destruct e as [o reg run ts n tr]. destruct request; paths; reflexivity. Qed.

Lemma killTask_frame (e : executor) (request : Unmarshal killReq.t) :
  regList (after (killTask request e)) = regList e ∧
  tasks (after (killTask request e)) = tasks e ∧
  contexts (after (killTask request e)) = contexts e.
Proof. destruct e as [o reg run ts n tr]. destruct request; paths; done. Qed.

Lemma callback_frame (e : executor) (task : ptr) (c : code) (msg : string)
    (net : Response) :
  regList (after (callback task c msg net e)) = regList e ∧
  tasks (after (callback task c msg net e)) = tasks e ∧
  contexts (after (callback task c msg net e)) = contexts e.
Proof. destruct e as [o reg run ts n tr]. paths; done. Qed.

Lemma idleBeat_frame (e : executor) (request : Unmarshal idleBeatReq.t) :
  regList (after (idleBeat request e)) = regList e ∧
  runList (after (idleBeat request e)) = runList e ∧
  tasks (after (idleBeat request e)) = tasks e ∧
  contexts (after (idleBeat request e)) = contexts e.
Proof. by destruct (idleBeat_state e request) as (evs & -> & _). Qed.

(** [runTask] and the Task objects: an object is as it was, or it is the
    one registered under the request's handler name and was bound to the
    request. *)
Lemma runTask_tasks (e : executor) (request : Unmarshal RunReq.t) (p : ptr) :
  tasks (after (runTask request e)) !! p = tasks e !! p ∨
  ∃ param t,
    request = Value param ∧
    regList e !! RunReq.ExecutorHandler param = Some p ∧
    tasks e !! p = Some t ∧
    tasks (after (runTask request e)) !! p = Some (rebound param t (contexts e)).
Proof.
  destruct e as [o reg run ts n tr]. destruct request; paths; try (by left).
  all: match goal with
       | Hreg : taskList.Get _ _ = Some ?q, Hq : ?m !! ?q = Some ?t
         |- context [<[?q := _]> ?m !! ?x] =>
           destruct (decide (x = q)) as [->|Hne];
           [right; eexists _, t; rewrite lookup_insert_eq; unfold rebound;
            repeat match goal with Hd : decide _ = _ |- _ => rewrite Hd end;
            done
           |left; by rewrite lookup_insert_ne by congruence]
       end.
Qed.

Lemma RegTask_frame (e : executor) (pattern : string) (task : TaskFunc) :
  let e' := after (RegTask pattern task e) in
  ∃ p, regList e' !! pattern = Some p ∧
       tasks e !! p = None ∧
       tasks e' !! p = Some {| Id := 0; Name := ""; Ext := None; Param := None;
                               fn := Some task; Cancel := None |} ∧
       runList e' = runList e ∧
       (∀ key, key ≠ pattern → regList e' !! key = regList e !! key) ∧
       (∀ q, q ≠ p → tasks e' !! q = tasks e !! q).
Proof.
  destruct e as [o reg run ts n tr]. simpl. unfold taskList.Set_.
  eexists. split; [by rewrite lookup_insert_eq|].
  split; [apply eq_None_not_Some, fresh_not_Some|].
  split; [by rewrite lookup_insert_eq|]. split; [done|].
  split; [intros key Hne; by rewrite lookup_insert_ne|].
  intros q Hne. by rewrite lookup_insert_ne.
Qed.

(** ** The paths of the handlers in a well-formed executor *)

Lemma runTask_cases (e : executor) (request : Unmarshal RunReq.t) :
  wf e →
  (request = Null ∧ runTask request e = Panic e) ∨
  (∃ param msg,
     runTask request e =
     Ret tt (with_trace (λ t, t ++ [Write (returnCall param FailureCode msg)]) e)) ∨
  (∃ param task t,
     request = Value param ∧
     regList e !! RunReq.ExecutorHandler param = Some task ∧
     tasks e !! task = Some t ∧
     runList e !! Int64ToStr (RunReq.JobID param) = None ∧
     runTask request e = Ret tt (started param task t e)) ∨
  (∃ param task t oldTask old cancel,
     request = Value param ∧
     regList e !! RunReq.ExecutorHandler param = Some task ∧
     tasks e !! task = Some t ∧
     runList e !! Int64ToStr (RunReq.JobID param) = Some oldTask ∧
     tasks e !! oldTask = Some old ∧
     Cancel old = Some cancel ∧
     RunReq.ExecutorBlockStrategy param = coverEarly ∧
     runTask request e = Ret tt (started param task t (covered old cancel e))).
Proof.
  intros Hwf.
  destruct (decide ((json_Unmarshal RunReq.zero request).2 = true)) as [Herr|Herr].
  { destruct (runTask_err e request Herr) as (param & _ & Heq).
    right; left. by exists param, "params err". }
  destruct request as [|partial| |param]; simpl in Herr; try done.
  { by left. }
  destruct (regList e !! RunReq.ExecutorHandler param) as [task|] eqn:Hreg.
  2: { right; left. exists param, "Task not registered".
       by apply runTask_unregistered. }
  destruct (wf_reg e Hwf _ _ Hreg) as [t Ht].
  destruct (runList e !! Int64ToStr (RunReq.JobID param)) as [oldTask|] eqn:Hrun.
  2: { right; right; left. exists param, task, t. repeat split; try done.
       rewrite runTask_idle by (by rewrite ?Hreg). by apply admission_eq. }
  destruct (decide (RunReq.ExecutorBlockStrategy param = coverEarly)) as [Hc|Hc].
  2: { right; left. exists param, "There are tasks running".
       apply runTask_discard; by rewrite ?Hreg, ?Hrun. }
  destruct (wf_run e Hwf _ _ Hrun) as (old & Hold & _ & [cancel Hcancel]).
  right; right; right. exists param, task, t, oldTask, old, cancel.
  repeat split; try done. by apply (runTask_coverEarly_state e param task oldTask).
Qed.

Lemma killTask_cases (e : executor) (request : Unmarshal killReq.t) :
  wf e →
  (request = Null ∧ killTask request e = Panic e) ∨
  (∃ param,
     (json_Unmarshal killReq.zero request).1 = Some param ∧
     runList e !! Int64ToStr (killReq.JobID param) = None ∧
     killTask request e =
     Ret tt (with_trace (λ t, t ++ [Write (returnKill param FailureCode)]) e)) ∨
  (∃ param task t cancel,
     (json_Unmarshal killReq.zero request).1 = Some param ∧
     runList e !! Int64ToStr (killReq.JobID param) = Some task ∧
     tasks e !! task = Some t ∧ Cancel t = Some cancel ∧
     killTask request e =
     Ret tt (killed (Int64ToStr (killReq.JobID param)) cancel e)).
Proof.
  intros Hwf.
  destruct ((json_Unmarshal killReq.zero request).1) as [param|] eqn:Hparam.
  2: { left. by destruct request. }
  destruct (runList e !! Int64ToStr (killReq.JobID param)) as [task|] eqn:Hrun.
  - destruct (wf_run e Hwf _ _ Hrun) as (t & Ht & _ & [cancel Hcancel]).
    right; right. exists param, task, t, cancel. repeat split; try done.
    by apply (killTask_present e request param task t cancel).
  - right; left. exists param. repeat split; try done.
    by apply killTask_absent.
Qed.

(** ** Invariants of the Task objects *)

Lemma cancels_made_events (e : executor) (evs : list event) :
  (∀ c, In (Invoke c) evs → (c < contexts e)%nat) →
  cancels_made e → cancels_made (with_trace (λ t, t ++ evs) e).
Proof.
  intros Hevs [Hts Htr]. split; simpl; [done|].
  intros c [Hin|Hin]%in_app_or; [by apply Htr|by apply Hevs].
Qed.

Lemma cancels_made_replies (e : executor) (evs : list event) :
  (∀ ev, In ev evs → ∃ r, ev = Write r) →
  cancels_made e → cancels_made (with_trace (λ t, t ++ evs) e).
Proof.
  intros Hevs. apply cancels_made_events.
  intros c Hin. by destruct (Hevs _ Hin).
Qed.

Lemma cancels_made_runList (e : executor)
    (f : gmap string ptr → gmap string ptr) :
  cancels_made e → cancels_made (with_runList f e).
Proof. by intros [Hts Htr]. Qed.

Lemma cancels_made_started (e : executor) (param : RunReq.t) (task : ptr)
    (t : Task) :
  cancels_made e → cancels_made (started param task t e).
Proof.
  intros [Hts Htr]. split; simpl.
  - intros p t' c [[<- <-]|[Hne Hp]]%lookup_insert_Some Hc.
    + simpl in Hc. injection Hc as <-. lia.
    + specialize (Hts _ _ _ Hp Hc). lia.
  - intros c [Hin|Hin]%in_app_or.
    + specialize (Htr _ Hin). lia.
    + destruct Hin as [?|[?|[?|[]]]]; discriminate.
Qed.

Lemma cancels_made_covered (e : executor) (oldTask : ptr) (old : Task)
    (cancel : CancelFunc) :
  tasks e !! oldTask = Some old → Cancel old = Some cancel →
  cancels_made e → cancels_made (covered old cancel e).
Proof.
  intros Hold Hc Hcm. unfold covered.
  apply cancels_made_events; [|by apply cancels_made_runList].
  intros c [Hin|[Hin|[]]]; [|discriminate]. injection Hin as <-.
  by apply (proj1 Hcm oldTask old).
Qed.

Lemma reachable_cancels_made (e : executor) :
  reachable e → cancels_made e.
Proof.
  induction 1 as [o|e pattern task Hr IH|e request Hr IH|e request Hr IH
                  |e request Hr IH|e task c msg net Hr IH Hgo].
  - split; simpl; [by intros ??? ?%lookup_empty_Some|by intros ? []].
  - destruct IH as [Hts Htr]. destruct e as [o reg run ts n tr]; simpl in *.
    split; simpl; [|done].
    intros p t c [[<- <-]|[Hne Hp]]%lookup_insert_Some Hc; [done|].
    by apply (Hts p t).
  - destruct (runTask_cases e request (reachable_wf e Hr))
      as [[_ ->]|[(param & msg & ->)|[(param & task & t & _ & _ & _ & _ & ->)
         |(param & task & t & oldTask & old & cancel & _ & _ & _ & _ & Hold & Hc & _ & ->)]]];
      simpl.
    + done.
    + apply cancels_made_replies; [|done]. intros ev [<-|[]]. by eexists.
    + by apply cancels_made_started.
    + apply cancels_made_started. by apply (cancels_made_covered e oldTask).
  - destruct (killTask_cases e request (reachable_wf e Hr))
      as [[_ ->]|[(param & _ & _ & ->)|(param & task & t & cancel & _ & _ & Ht & Hc & ->)]];
      simpl.
    + done.
    + apply cancels_made_replies; [|done]. intros ev [<-|[]]. by eexists.
    + unfold killed. apply cancels_made_events; [|by apply cancels_made_runList].
      intros c [Hin|[Hin|[Hin|[]]]]; try discriminate. injection Hin as <-.
      by apply (proj1 IH task t).
  - destruct (idleBeat_state e request) as (evs & -> & Hevs).
    by apply cancels_made_replies.
  - destruct (wf_go e (reachable_wf e Hr) _ Hgo) as (t & Ht & [param Hp] & _).
    rewrite (callback_eq e task t param) by done. unfold called_back. simpl.
    apply cancels_made_events; [|by apply cancels_made_runList].
    intros c' [Hin|[Hin|Hin]]; try discriminate.
    by destruct (alerts_Alert _ _ _ _ _ _ Hin) as (? & ? & ? & ? & ?).
Qed.

(** X1. The cancel function that an admission stores in the Task was made
    by that admission: no Task held it before, and it has not been called
    when the handler returns. *)
Theorem admission_makes_new_cancel (e : executor) (param : RunReq.t) (task : ptr) :
  reachable e →
  regList e !! RunReq.ExecutorHandler param = Some task →
  runList e !! Int64ToStr (RunReq.JobID param) = None ∨
    RunReq.ExecutorBlockStrategy param = coverEarly →
  let e' := after (runTask (Value param) e) in
  ∃ t, tasks e' !! task = Some t ∧ Cancel t = Some (contexts e) ∧
       contexts e' = S (contexts e) ∧
       (∀ p t0, tasks e !! p = Some t0 → Cancel t0 ≠ Some (contexts e)) ∧
       ¬ In (Invoke (contexts e)) (trace e').
Proof.
  intros Hr Hreg Hadm e'.
  pose proof (reachable_wf e Hr) as Hwf.
  pose proof (reachable_cancels_made e Hr) as [Hts Htr].
  destruct (wf_reg e Hwf _ _ Hreg) as [t Ht].
  assert (∀ p t0, tasks e !! p = Some t0 → Cancel t0 ≠ Some (contexts e)) as Hnew.
  { intros p t0 Hp Hc. specialize (Hts _ _ _ Hp Hc). lia. }
  assert (¬ In (Invoke (contexts e)) (trace e)) as Hnot.
  { intros Hin. specialize (Htr _ Hin). lia. }
  exists (rebound param t (contexts e)). unfold e'.
  destruct (runList e !! Int64ToStr (RunReq.JobID param)) as [oldTask|] eqn:Hrun.
  - destruct Hadm as [?|Hc]; [done|].
    destruct (wf_run e Hwf _ _ Hrun) as (old & Hold & _ & [cancel Hcancel]).
    rewrite (runTask_coverEarly_state e param task oldTask t old cancel) by done.
    simpl. rewrite lookup_insert_eq. repeat split; try done.
    intros [[Hin|Hin]%in_app_or|Hin]%in_app_or; [done| |].
    + destruct Hin as [Hin|[Hin|[]]]; [|discriminate]. injection Hin as Heq.
      specialize (Hts _ _ _ Hold Hcancel). lia.
    + destruct Hin as [?|[?|[?|[]]]]; discriminate.
  - rewrite runTask_idle by (by rewrite ?Hreg).
    rewrite (admission_eq e param task t) by done.
    simpl. rewrite lookup_insert_eq. repeat split; try done.
    intros [Hin|Hin]%in_app_or; [done|].
    destruct Hin as [?|[?|[?|[]]]]; discriminate.
Qed.

(** X2. Every Task object of a reachable executor has its job function:
    [RegTask] sets [fn] and no admission overwrites it, so the goroutine of
    a started Task always has a function to call. *)
Theorem tasks_have_fn (e : executor) (p : ptr) (t : Task) :
  reachable e → tasks e !! p = Some t → is_Some (fn t).
Proof.
  intros Hr. revert p t.
  induction Hr as [o|e pattern task Hr IH|e request Hr IH|e request Hr IH
                   |e request Hr IH|e task c msg net Hr IH Hgo]; intros p t.
  - simpl. by intros ?%lookup_empty_Some.
  - destruct e as [o reg run ts n tr]; simpl in *.
    intros [[<- <-]|[Hne Hp]]%lookup_insert_Some; [by eexists|by eapply IH].
  - destruct (runTask_cases e request (reachable_wf e Hr))
      as [[_ ->]|[(param & msg & ->)|[(param & task & t0 & _ & _ & Ht0 & _ & ->)
         |(param & task & t0 & oldTask & old & cancel & _ & _ & Ht0 & _ & _ & _ & _ & ->)]]];
      simpl; try apply IH.
    + intros [[<- <-]|[Hne Hp]]%lookup_insert_Some; [|by eapply IH].
      simpl. by eapply IH.
    + intros [[<- <-]|[Hne Hp]]%lookup_insert_Some; [|by eapply IH].
      simpl. by eapply IH.
  - destruct (killTask_frame e request) as (_ & -> & _). apply IH.
  - destruct (idleBeat_frame e request) as (_ & _ & -> & _). apply IH.
  - destruct (callback_frame e task c msg net) as (_ & -> & _). apply IH.
Qed.

(** X3. What the methods do to the registry, its names and its Task objects
    alike.  [runTask] never changes the table of names, and of the Task
    objects it changes at most the one registered under the request's
    handler name; that one it does rewrite when it admits the request: the
    object gets the request's [Id], [Name], [Ext] and [Param] and a new
    [Cancel], and keeps only its [fn], while the name still leads to it.
    [killTask], [idleBeat] and [callback] change neither the table of names
    nor any Task object.  [RegTask] makes a new object with the job
    function, sets the entry of its pattern to it, and leaves every other
    registration, every other object and the running table as they were. *)
Theorem registry_after_methods (e : executor) :
  (∀ request p,
     let e' := after (runTask request e) in
     regList e' = regList e ∧
     (tasks e' !! p = tasks e !! p ∨
      ∃ param t,
        request = Value param ∧
        regList e !! RunReq.ExecutorHandler param = Some p ∧
        tasks e !! p = Some t ∧
        tasks e' !! p = Some (rebound param t (contexts e)))) ∧
  (∀ param task t,
     regList e !! RunReq.ExecutorHandler param = Some task →
     tasks e !! task = Some t →
     runList e !! Int64ToStr (RunReq.JobID param) = None →
     let e' := after (runTask (Value param) e) in
     regList e' !! RunReq.ExecutorHandler param = Some task ∧
     tasks e' !! task = Some (rebound param t (contexts e))) ∧
  (∀ request,
     regList (after (killTask request e)) = regList e ∧
     tasks (after (killTask request e)) = tasks e) ∧
  (∀ request,
     regList (after (idleBeat request e)) = regList e ∧
     tasks (after (idleBeat request e)) = tasks e) ∧
  (∀ task c msg net,
     regList (after (callback task c msg net e)) = regList e ∧
     tasks (after (callback task c msg net e)) = tasks e) ∧
  (∀ pattern task,
     let e' := after (RegTask pattern task e) in
     ∃ p, regList e' !! pattern = Some p ∧
          tasks e !! p = None ∧
          tasks e' !! p = Some {| Id := 0; Name := ""; Ext := None;
                                  Param := None; fn := Some task;
                                  Cancel := None |} ∧
          runList e' = runList e ∧
          (∀ key, key ≠ pattern → regList e' !! key = regList e !! key) ∧
          (∀ q, q ≠ p → tasks e' !! q = tasks e !! q)).
Proof.
  split; [intros request p; split; [apply runTask_regList|apply runTask_tasks]|].
  split.
  { intros param task t Hreg Ht Hrun e'. unfold e'.
    rewrite runTask_idle by (by rewrite ?Hreg).
    rewrite (admission_eq e param task t) by done. simpl.
    split; [done|]. by rewrite lookup_insert_eq. }
  split; [intros request; by destruct (killTask_frame e request) as (? & ? & _)|].
  split; [intros request; by destruct (idleBeat_frame e request) as (? & _ & ? & _)|].
  split; [intros task c msg net;
          by destruct (callback_frame e task c msg net) as (? & ? & _)|].
  intros pattern task. apply RegTask_frame.
Qed.

(** X4. Two handler names never lead to the same Task object: each
    [RegTask] makes an object of its own. *)
Theorem registry_injective (e : executor) (key1 key2 : string) (p : ptr) :
  reachable e →
  regList e !! key1 = Some p → regList e !! key2 = Some p → key1 = key2.
Proof.
  intros Hr. revert key1 key2 p.
  induction Hr as [o|e pattern task Hr IH|e request Hr IH|e request Hr IH
                   |e request Hr IH|e task c msg net Hr IH Hgo];
    intros key1 key2 p.
  - simpl. by intros ?%lookup_empty_Some.
  - pose proof (reachable_wf e Hr) as Hwf.
    destruct e as [o reg run ts n tr]; simpl in *. unfold taskList.Set_.
    intros [[<- <-]|[Hne1 H1]]%lookup_insert_Some
           [[<- Heq]|[Hne2 H2]]%lookup_insert_Some; try done.
    + destruct (fresh_not_Some ts). by apply (wf_reg _ Hwf key2).
    + destruct (fresh_not_Some ts). rewrite Heq. by apply (wf_reg _ Hwf key1).
    + by eapply IH.
  - rewrite runTask_regList. apply IH.
  - destruct (killTask_frame e request) as (-> & _). apply IH.
  - destruct (idleBeat_frame e request) as (-> & _). apply IH.
  - destruct (callback_frame e task c msg net) as (-> & _). apply IH.
Qed.

(** ** Requests and replies *)

Lemma events_Ret {A} (m : M A) (e e' : executor) (a : A) (evs : list event) :
  m e = Ret a e' → trace e' = trace e ++ evs → events m e = evs.
Proof. intros Hm Ht. apply events_eq. by rewrite Hm. Qed.

(** X5. [runTask] on a body that leaves a [param] either rejects or
    accepts.  Rejecting, it writes one failure reply and does nothing else.
    Accepting, it ends with the [Set] of the handler's Task under the key of
    the job id, the start of one goroutine and the success reply, in that
    order, preceded by nothing or by the cancel call and the [Del] of
    [coverEarly]. *)
Theorem runTask_accepts_or_rejects (e : executor) (request : Unmarshal RunReq.t) :
  reachable e →
  request ≠ Null →
  (∃ param msg,
     events (runTask request) e = [Write (returnCall param FailureCode msg)] ∧
     runList (after (runTask request e)) = runList e ∧
     tasks (after (runTask request e)) = tasks e ∧
     contexts (after (runTask request e)) = contexts e) ∨
  (∃ param task pre,
     request = Value param ∧
     regList e !! RunReq.ExecutorHandler param = Some task ∧
     runList (after (runTask request e)) !! Int64ToStr (RunReq.JobID param)
       = Some task ∧
     events (runTask request) e =
       pre ++ [RunSet (Int64ToStr (RunReq.JobID param)) task; Go task;
               Write returnGeneral] ∧
     (pre = [] ∨ ∃ cancel key, pre = [Invoke cancel; RunDel key])).
Proof.
  intros Hr Hnull.
  destruct (runTask_cases e request (reachable_wf e Hr))
    as [[-> _]|[(param & msg & Heq)|[(param & task & t & -> & Hreg & Ht & Hrun & Heq)
       |(param & task & t & oldTask & old & cancel & -> & Hreg & Ht & Hrun & Hold & Hc & Hcov & Heq)]]].
  - done.
  - left. exists param, msg. rewrite Heq. repeat split.
    by apply (events_Ret _ _ _ _ _ Heq).
  - right. exists param, task, []. rewrite Heq. repeat split; try done.
    + simpl. apply lookup_insert_eq.
    + by apply (events_Ret _ _ _ _ _ Heq).
    + by left.
  - right. exists param, task, [Invoke cancel; RunDel (Int64ToStr (Id old))].
    rewrite Heq. repeat split; try done.
    + simpl. apply lookup_insert_eq.
    + apply (events_Ret _ _ _ _ _ Heq). simpl. by rewrite <- app_assoc.
    + right. by eexists _, _.
Qed.


(** ** One request after another *)

Lemma runTask_idle_state (e : executor) (param : RunReq.t) (task : ptr) (t : Task) :
  regList e !! RunReq.ExecutorHandler param = Some task →
  tasks e !! task = Some t →
  runList e !! Int64ToStr (RunReq.JobID param) = None →
  runTask (Value param) e = Ret tt (started param task t e).
Proof.
  intros Hreg Ht Hrun. rewrite runTask_idle by (by rewrite ?Hreg).
  by apply admission_eq.
Qed.

(** X7. A kill that follows the admission of an idle job calls the cancel
    function which that admission made, and leaves the running table as it
    was before the job was run. *)
Theorem kill_undoes_run (e : executor) (param : RunReq.t) (task : ptr) :
  reachable e →
  regList e !! RunReq.ExecutorHandler param = Some task →
  runList e !! Int64ToStr (RunReq.JobID param) = None →
  let e1 := after (runTask (Value param) e) in
  let kill := killTask (Value {| killReq.JobID := RunReq.JobID param |}) in
  events kill e1 =
    [Invoke (contexts e); RunDel (Int64ToStr (RunReq.JobID param));
     Write returnGeneral] ∧
  runList (after (kill e1)) = runList e.
Proof.
  intros Hr Hreg Hrun e1 kill.
  destruct (wf_reg e (reachable_wf e Hr) _ _ Hreg) as [t Ht].
  unfold e1. rewrite (runTask_idle_state e param task t) by done.
  cbn [after]. clear e1.
  assert (kill (started param task t e) =
          Ret tt (killed (Int64ToStr (RunReq.JobID param)) (contexts e)
                    (started param task t e))) as Hk.
  { apply (killTask_present _ _ {| killReq.JobID := RunReq.JobID param |} task
             (rebound param t (contexts e))); try done.
    - simpl. apply lookup_insert_eq.
    - simpl. apply lookup_insert_eq. }
  split.
  - by apply (events_Ret _ _ _ _ _ Hk).
  - rewrite Hk. simpl. unfold taskList.Del. by apply delete_insert_id.
Qed.

(** X8. The callback of a job that was admitted idle, when no other
    admission came in between, deletes the key of that job and posts the
    request it was run with: the running table is as it was before the job
    was run, whatever the network does. *)
Theorem callback_undoes_run (e : executor) (param : RunReq.t) (task : ptr)
    (c : code) (msg : string) (net : Response) :
  reachable e →
  regList e !! RunReq.ExecutorHandler param = Some task →
  runList e !! Int64ToStr (RunReq.JobID param) = None →
  let e1 := after (runTask (Value param) e) in
  In (Go task) (trace e1) ∧
  (∃ rest,
     events (callback task c msg net) e1 =
       RunDel (Int64ToStr (RunReq.JobID param))
         :: Post "/api/callback" (returnCall param c msg) :: rest ∧
     Forall (λ ev, ∃ w s m b, ev = Alert w s m b) rest) ∧
  runList (after (callback task c msg net e1)) = runList e.
Proof.
  intros Hr Hreg Hrun e1.
  destruct (wf_reg e (reachable_wf e Hr) _ _ Hreg) as [t Ht].
  unfold e1. rewrite (runTask_idle_state e param task t) by done.
  cbn [after]. clear e1.
  assert (tasks (started param task t e) !! task
          = Some (rebound param t (contexts e))) as Ht1.
  { simpl. apply lookup_insert_eq. }
  split; [|split].
  - simpl. apply in_or_app. right. right. by left.
  - eexists. split.
    + by apply (callback_events _ task (rebound param t (contexts e)) param).
    + apply Forall_forall. intros ev ?%list_elem_of_In. by eapply alerts_Alert.
  - rewrite (callback_eq _ task (rebound param t (contexts e)) param) by done.
    simpl. unfold taskList.Del. by apply delete_insert_id.
Qed.

(** X9. A job that was admitted idle and is run again with [coverEarly]
    (on any registered handler): the cancel function called is the one the
    first admission made, the key deleted is the job's own, the running
    table ends with that one key set to the Task of the new handler, and the
    new cancel function is another one. *)
Theorem coverEarly_replaces_own_run (e : executor) (param param' : RunReq.t)
    (task task' : ptr) :
  reachable e →
  regList e !! RunReq.ExecutorHandler param = Some task →
  runList e !! Int64ToStr (RunReq.JobID param) = None →
  regList e !! RunReq.ExecutorHandler param' = Some task' →
  RunReq.JobID param' = RunReq.JobID param →
  RunReq.ExecutorBlockStrategy param' = coverEarly →
  let key := Int64ToStr (RunReq.JobID param) in
  let e1 := after (runTask (Value param) e) in
  let e2 := after (runTask (Value param') e1) in
  events (runTask (Value param')) e1 =
    [Invoke (contexts e); RunDel key; RunSet key task'; Go task';
     Write returnGeneral] ∧
  runList e2 = <[key := task']> (runList e) ∧
  Cancel <$> tasks e2 !! task' = Some (Some (S (contexts e))).
Proof.
  intros Hr Hreg Hrun Hreg' Hid Hcov key e1 e2.
  destruct (wf_reg e (reachable_wf e Hr) _ _ Hreg) as [t Ht].
  assert (reachable e1) as Hr1 by by apply reach_runTask.
  assert (e1 = started param task t e) as He1.
  { unfold e1. by rewrite (runTask_idle_state e param task t). }
  assert (regList e1 !! RunReq.ExecutorHandler param' = Some task') as Hreg1.
  { by rewrite He1. }
  destruct (wf_reg e1 (reachable_wf e1 Hr1) _ _ Hreg1) as [t' Ht'].
  assert (runTask (Value param') e1 =
          Ret tt (started param' task' t'
                    (covered (rebound param t (contexts e)) (contexts e) e1)))
    as Hrt.
  { apply (runTask_coverEarly_state e1 param' task' task); try done.
    - rewrite Hid, He1. simpl. apply lookup_insert_eq.
    - rewrite He1. simpl. apply lookup_insert_eq. }
  split; [|split].
  - apply (events_Ret _ _ _ _ _ Hrt). simpl. by rewrite <- app_assoc, Hid.
  - unfold e2. rewrite Hrt. simpl. rewrite Hid, He1. simpl.
    unfold taskList.Del. fold key.
    by rewrite delete_insert_eq, insert_delete_eq.
  - unfold e2. rewrite Hrt. simpl. rewrite lookup_insert_eq. simpl.
    by rewrite He1.
Qed.

(** X10. An idle-beat that follows an admission of the job reports it
    busy. *)
Theorem idleBeat_busy_after_run (e : executor) (param : RunReq.t) (task : ptr) :
  reachable e →
  regList e !! RunReq.ExecutorHandler param = Some task →
  runList e !! Int64ToStr (RunReq.JobID param) = None ∨
    RunReq.ExecutorBlockStrategy param = coverEarly →
  let e1 := after (runTask (Value param) e) in
  idleBeat (Value {| idleBeatReq.JobID := RunReq.JobID param |}) e1 =
  Ret tt (with_trace (λ t, t ++ [Write (returnIdleBeat FailureCode)]) e1).
Proof.
  intros Hr Hreg Hadm e1.
  destruct (runTask_stores_registered e param task Hr Hreg Hadm) as (Hrun1 & _).
  subst e1. rewrite idleBeat_Value. cbn [idleBeatReq.JobID].
  by rewrite Exists_true by (by rewrite Hrun1).
Qed.

(** X11. Once a kill request for a job id has been handled, the key of that
    id is not in the running table: an idle-beat for it reports idle and a
    second kill is answered with the failure reply and changes nothing. *)
Theorem kill_settles (e : executor) (request : Unmarshal killReq.t)
    (param : killReq.t) :
  reachable e →
  (json_Unmarshal killReq.zero request).1 = Some param →
  let e1 := after (killTask request e) in
  runList e1 !! Int64ToStr (killReq.JobID param) = None ∧
  idleBeat (Value {| idleBeatReq.JobID := killReq.JobID param |}) e1 =
    Ret tt (with_trace (λ t, t ++ [Write returnGeneral]) e1) ∧
  killTask request e1 =
    Ret tt (with_trace (λ t, t ++ [Write (returnKill param FailureCode)]) e1).
Proof.
  intros Hr Hparam e1.
  assert (runList e1 !! Int64ToStr (killReq.JobID param) = None) as Hnone.
  { unfold e1.
    destruct (killTask_cases e request (reachable_wf e Hr))
      as [[-> _]|[(param' & Hp & Hrun & ->)|(param' & task & t & cancel & Hp & _ & _ & _ & ->)]].
    - done.
    - rewrite Hparam in Hp. by injection Hp as <-.
    - rewrite Hparam in Hp. injection Hp as <-. simpl. apply lookup_delete_eq. }
  split; [done|]. split.
  - rewrite idleBeat_Value. cbn [idleBeatReq.JobID]. by rewrite Exists_false.
  - by apply killTask_absent.
Qed.

(** X12. Two idle jobs run one after the other on one handler: both keys
    of the running table lead to the handler's one Task object, which now
    carries the second job.  So the kill of the first job calls the cancel
    function of the second, and the callback of either job deletes the key
    of the second and leaves the first in the table. *)
Theorem two_jobs_share_task (e : executor) (a b : RunReq.t) (task : ptr) :
  reachable e →
  regList e !! RunReq.ExecutorHandler a = Some task →
  RunReq.ExecutorHandler b = RunReq.ExecutorHandler a →
  Int64ToStr (RunReq.JobID a) ≠ Int64ToStr (RunReq.JobID b) →
  runList e !! Int64ToStr (RunReq.JobID a) = None →
  runList e !! Int64ToStr (RunReq.JobID b) = None →
  let e2 := after (runTask (Value b) (after (runTask (Value a) e))) in
  runList e2 !! Int64ToStr (RunReq.JobID a) = Some task ∧
  runList e2 !! Int64ToStr (RunReq.JobID b) = Some task ∧
  (∃ t, tasks e2 !! task = Some t ∧ Id t = RunReq.JobID b ∧
        Param t = Some b ∧ Cancel t = Some (S (contexts e))) ∧
  events (killTask (Value {| killReq.JobID := RunReq.JobID a |})) e2 =
    [Invoke (S (contexts e)); RunDel (Int64ToStr (RunReq.JobID a));
     Write returnGeneral] ∧
  ∀ c msg net,
    let e3 := after (callback task c msg net e2) in
    runList e3 !! Int64ToStr (RunReq.JobID a) = Some task ∧
    runList e3 !! Int64ToStr (RunReq.JobID b) = None.
Proof.
  intros Hr Hreg Hh Hne Ha Hb e2.
  destruct (wf_reg e (reachable_wf e Hr) _ _ Hreg) as [t Ht].
  assert (e2 = started b task (rebound a t (contexts e)) (started a task t e))
    as He2.
  { unfold e2. rewrite (runTask_idle_state e a task t) by done. cbn [after].
    rewrite (runTask_idle_state _ b task (rebound a t (contexts e))); [done|..].
    - by rewrite Hh.
    - simpl. apply lookup_insert_eq.
    - simpl. by rewrite lookup_insert_ne. }
  clearbody e2. subst e2.
  assert (tasks (started b task (rebound a t (contexts e)) (started a task t e))
            !! task
          = Some (rebound b (rebound a t (contexts e)) (S (contexts e)))) as Ht2.
  { simpl. apply lookup_insert_eq. }
  split; [|split; [|split; [|split]]].
  - simpl. rewrite lookup_insert_ne by done. apply lookup_insert_eq.
  - simpl. apply lookup_insert_eq.
  - by eexists.
  - eapply events_Ret.
    + apply (killTask_present _ _ {| killReq.JobID := RunReq.JobID a |} task
               (rebound b (rebound a t (contexts e)) (S (contexts e)))
               (S (contexts e))); [done| |exact Ht2|done].
      simpl. rewrite lookup_insert_ne by done. apply lookup_insert_eq.
    + done.
  - intros c msg net e3. unfold e3.
    rewrite (callback_eq _ task _ b c msg net Ht2 eq_refl). simpl.
    unfold taskList.Del. split.
    + rewrite lookup_delete_ne by done. rewrite lookup_insert_ne by done.
      apply lookup_insert_eq.
    + apply lookup_delete_eq.
Qed.

(** ** The deadline of a Task *)

Lemma int64_small (z : Z) : (- 2 ^ 63 ≤ z < 2 ^ 63)%Z → int64 z = z.
Proof. unfold int64. intros Hz. rewrite Z.mod_small; lia. Qed.

Lemma int64_wrap (z : Z) : (2 ^ 63 ≤ z < 2 ^ 64)%Z → int64 z = (z - 2 ^ 64)%Z.
Proof.
  unfold int64. intros Hz.
  replace (z + 2 ^ 63)%Z with ((z - 2 ^ 63) + 1 * 2 ^ 64)%Z by lia.
  rewrite Z_mod_plus_full. rewrite Z.mod_small; lia.
Qed.

Lemma runTask_stores_context (e : executor) (param : RunReq.t) (task : ptr) :
  reachable e →
  regList e !! RunReq.ExecutorHandler param = Some task →
  runList e !! Int64ToStr (RunReq.JobID param) = None ∨
    RunReq.ExecutorBlockStrategy param = coverEarly →
  ∃ t, tasks (after (runTask (Value param) e)) !! task = Some t ∧
       timeout <$> Ext t =
         Some (if decide (0 < RunReq.ExecutorTimeout param)%Z
               then Some (int64 (RunReq.ExecutorTimeout param * Second))
               else None).
Proof.
  intros Hr Hreg Hadm. pose proof (reachable_wf e Hr) as Hwf.
  destruct (wf_reg e Hwf _ _ Hreg) as [t Ht].
  exists (rebound param t (contexts e)).
  destruct (runList e !! Int64ToStr (RunReq.JobID param)) as [oldTask|] eqn:Hrun.
  - destruct Hadm as [?|Hc]; [done|].
    destruct (wf_run e Hwf _ _ Hrun) as (old & Hold & _ & [cancel Hcancel]).
    rewrite (runTask_coverEarly_state e param task oldTask t old cancel) by done.
    simpl. by rewrite lookup_insert_eq.
  - rewrite (runTask_idle_state e param task t) by done.
    simpl. by rewrite lookup_insert_eq.
Qed.

(** X13. The Task that is admitted gets a deadline exactly when the
    timeout of the request is positive; up to 9223372036 seconds the
    duration is that many seconds in nanoseconds, and a zero or negative
    timeout leaves the Task with a context that only its cancel function
    ends. *)
Theorem admission_deadline (e : executor) (param : RunReq.t) (task : ptr) :
  reachable e →
  regList e !! RunReq.ExecutorHandler param = Some task →
  runList e !! Int64ToStr (RunReq.JobID param) = None ∨
    RunReq.ExecutorBlockStrategy param = coverEarly →
  (RunReq.ExecutorTimeout param ≤ 9223372036)%Z →
  ∃ t, tasks (after (runTask (Value param) e)) !! task = Some t ∧
       timeout <$> Ext t =
         Some (if decide (0 < RunReq.ExecutorTimeout param)%Z
               then Some (RunReq.ExecutorTimeout param * 1000000000)%Z
               else None).
Proof.
  intros Hr Hreg Hadm Hmax.
  destruct (runTask_stores_context e param task Hr Hreg Hadm) as (t & Ht & Hext).
  exists t. split; [done|]. rewrite Hext.
  destruct (decide (0 < RunReq.ExecutorTimeout param)%Z); [|done].
  rewrite int64_small; [done|]. unfold Second. lia.
Qed.

(** X14. The duration is computed in int64 nanoseconds: a timeout above
    9223372036 seconds (and up to 18446744073) overflows, and the Task is
    given a negative duration, which is a deadline already past. *)
Theorem admission_deadline_overflow (e : executor) (param : RunReq.t) (task : ptr) :
  reachable e →
  regList e !! RunReq.ExecutorHandler param = Some task →
  runList e !! Int64ToStr (RunReq.JobID param) = None ∨
    RunReq.ExecutorBlockStrategy param = coverEarly →
  (9223372036 < RunReq.ExecutorTimeout param ≤ 18446744073)%Z →
  ∃ t, tasks (after (runTask (Value param) e)) !! task = Some t ∧
       timeout <$> Ext t =
         Some (Some (RunReq.ExecutorTimeout param * 1000000000 - 2 ^ 64)%Z) ∧
       (RunReq.ExecutorTimeout param * 1000000000 - 2 ^ 64 < 0)%Z.
Proof.
  intros Hr Hreg Hadm Hrange.
  destruct (runTask_stores_context e param task Hr Hreg Hadm) as (t & Ht & Hext).
  exists t. split; [done|]. rewrite Hext.
  destruct (decide (0 < RunReq.ExecutorTimeout param)%Z); [|lia].
  rewrite int64_wrap; [split; [done|lia]|]. unfold Second. lia.
Qed.

(** ** The failure markers of [callback] *)

Lemma append_String (a : ascii) (s t : string) :
  String a s +:+ t = String a (s +:+ t).
Proof. reflexivity. Qed.

Lemma append_empty (t : string) : "" +:+ t = t.
Proof. reflexivity. Qed.

Lemma String_prefix_spec (sub s : string) :
  String.prefix sub s = true ↔ ∃ post, s = sub +:+ post.
Proof.
  revert s. induction sub as [|a sub IH]; intros s.
  - simpl. split; [intros _; by exists s|intros _]. by destruct s.
  - destruct s as [|b s]; simpl.
    + split; [done|]. intros [post Hs]. by rewrite append_String in Hs.
    + destruct (Ascii.ascii_dec a b) as [->|Hne].
      * rewrite IH. split; intros [post Hs]; exists post.
        -- by rewrite append_String, Hs.
        -- rewrite append_String in Hs. congruence.
      * split; [done|]. intros [post Hs]. rewrite append_String in Hs.
        congruence.
Qed.

Lemma Contains_empty (sub : string) :
  Contains "" sub = if String.prefix sub "" then true else false.
Proof. reflexivity. Qed.

Lemma Contains_String (a : ascii) (s sub : string) :
  Contains (String a s) sub =
  if String.prefix sub (String a s) then true else Contains s sub.
Proof. reflexivity. Qed.

Lemma Contains_spec (s sub : string) :
  Contains s sub = true ↔ ∃ pre post, s = pre +:+ sub +:+ post.
Proof.
  induction s as [|a s IH].
  - rewrite Contains_empty. destruct (String.prefix sub "") eqn:Hp.
    + split; [intros _|done].
      apply String_prefix_spec in Hp as [post Hs]. by exists "", post.
    + split; [done|]. intros (pre & post & Hs).
      destruct pre as [|b pre]; [|by rewrite append_String in Hs].
      rewrite append_empty in Hs.
      assert (String.prefix sub "" = true) as Ht
        by (apply String_prefix_spec; by exists post).
      congruence.
  - rewrite Contains_String. destruct (String.prefix sub (String a s)) eqn:Hp.
    + split; [intros _|done].
      apply String_prefix_spec in Hp as [post Hs]. by exists "", post.
    + rewrite IH. split.
      * intros (pre & post & ->). by exists (String a pre), post.
      * intros (pre & post & Hs). destruct pre as [|b pre].
        -- rewrite append_empty in Hs.
           assert (String.prefix sub (String a s) = true) as Ht
             by (apply String_prefix_spec; by exists post).
           congruence.
        -- rewrite append_String in Hs. injection Hs as -> ->.
           by exists pre, post.
Qed.

Lemma lowerBytes_append (s t : string) :
  lowerBytes (s +:+ t) = lowerBytes s +:+ lowerBytes t.
Proof.
  induction s as [|a s IH]; [done|].
  rewrite append_String. simpl. by rewrite IH, append_String.
Qed.

Lemma isASCII_append (s t : string) :
  isASCII (s +:+ t) = isASCII s && isASCII t.
Proof.
  induction s as [|a s IH]; [done|].
  rewrite append_String. simpl. rewrite IH. by rewrite andb_assoc.
Qed.

Lemma ToLower_ASCII (s : string) :
  isASCII s = true → ToLower s = lowerBytes s.
Proof. unfold ToLower. by intros ->. Qed.

(** X15. When the response to the callback was read, the alert for a failed
    execution is sent exactly when [strings.ToLower] of the message has
    "fail" or "error" somewhere inside it, whatever the message; and a
    message of ASCII text alerts whenever a piece of it, in whatever mix of
    upper and lower case, spells one of the two markers. *)
Theorem callback_alerts_on_marker (e : executor) (task : ptr) (c : code)
    (msg body : string) :
  reachable e →
  In (Go task) (trace e) →
  let evs := events (callback task c msg (Resp (Body body))) e in
  ((∃ w s content b, In (Alert w s content b) evs) ↔
   (∃ pre post, ToLower msg = pre +:+ "fail" +:+ post ∨
                ToLower msg = pre +:+ "error" +:+ post)) ∧
  (∀ pre m post,
     isASCII msg = true →
     msg = pre +:+ m +:+ post →
     lowerBytes m = "fail" ∨ lowerBytes m = "error" →
     ∃ w s content b, In (Alert w s content b) evs).
Proof.
  intros Hr Hgo evs.
  destruct (wf_go e (reachable_wf e Hr) _ Hgo) as (t & Ht & [param Hp] & _).
  assert ((∃ w s content b, In (Alert w s content b) evs) ↔
          Contains (ToLower msg) "fail" || Contains (ToLower msg) "error" = true)
    as Hevs.
  { unfold evs. rewrite (callback_events e task t param) by done. simpl.
    destruct (Contains (ToLower msg) "fail" || Contains (ToLower msg) "error").
    - split; [done|]. intros _. do 4 eexists. right. right. by left.
    - split; [|done]. intros (w & s & content & b & [?|[?|[]]]); discriminate. }
  assert (Contains (ToLower msg) "fail" || Contains (ToLower msg) "error" = true ↔
          ∃ pre post, ToLower msg = pre +:+ "fail" +:+ post ∨
                      ToLower msg = pre +:+ "error" +:+ post) as Hmark.
  { rewrite orb_true_iff, !Contains_spec. split.
    - intros [(pre & post & Hs)|(pre & post & Hs)]; exists pre, post; eauto.
    - intros (pre & post & [Hs|Hs]); [left|right]; eauto. }
  split; [by rewrite Hevs|].
  intros pre m post Hascii -> Hm. apply Hevs, Hmark.
  rewrite (ToLower_ASCII _ Hascii).
  exists (lowerBytes pre), (lowerBytes post). rewrite !lowerBytes_append.
  destruct Hm as [->| ->]; eauto.
Qed.

(** ** What a run without [coverEarly] never does *)

(** X16. A run request under any block strategy but [coverEarly] never
    calls a cancel function and never deletes from the running table: every
    entry that was there is still there when the handler returns. *)
Theorem run_without_cover_keeps_entries (e : executor) (param : RunReq.t) :
  reachable e →
  RunReq.ExecutorBlockStrategy param ≠ coverEarly →
  let evs := events (runTask (Value param)) e in
  (∀ cancel, ¬ In (Invoke cancel) evs) ∧
  (∀ key, ¬ In (RunDel key) evs) ∧
  runList e ⊆ runList (after (runTask (Value param) e)).
Proof.
  intros Hr Hne evs. unfold evs.
  destruct (runTask_cases e (Value param) (reachable_wf e Hr))
    as [[? _]|[(param' & msg & Heq)|[(param' & task & t & Hv & _ & _ & Hrun & Heq)
       |(param' & task & t & oldTask & old & cancel & Hv & _ & _ & _ & _ & _ & Hcov & _)]]].
  - done.
  - rewrite (events_Ret _ _ _ _ _ Heq eq_refl), Heq. simpl.
    repeat split; [intros cancel [?|[]]; discriminate
                  |intros key [?|[]]; discriminate|done].
  - injection Hv as <-.
    rewrite (events_Ret _ _ _ _ _ Heq eq_refl), Heq. simpl.
    repeat split.
    + intros cancel [?|[?|[?|[]]]]; discriminate.
    + intros key [?|[?|[?|[]]]]; discriminate.
    + by apply insert_subseteq.
  - injection Hv as <-. done.
Qed.

(** ** A callback that comes late *)

(** X17. A job is run, killed and run again, and only then the goroutine of
    the first run calls back.  The callback deletes the key of the job id,
    which is now the entry of the second run: the running table is as it
    was before the first run although the second goroutine was started, and
    an idle-beat reports the job idle. *)
Theorem late_callback_removes_new_run (e : executor) (param : RunReq.t)
    (task : ptr) (c : code) (msg : string) (net : Response) :
  reachable e →
  regList e !! RunReq.ExecutorHandler param = Some task →
  runList e !! Int64ToStr (RunReq.JobID param) = None →
  let kill := killTask (Value {| killReq.JobID := RunReq.JobID param |}) in
  let e3 := after (runTask (Value param)
                     (after (kill (after (runTask (Value param) e))))) in
  let e4 := after (callback task c msg net e3) in
  runList e3 !! Int64ToStr (RunReq.JobID param) = Some task ∧
  runList e4 = runList e ∧
  idleBeat (Value {| idleBeatReq.JobID := RunReq.JobID param |}) e4 =
    Ret tt (with_trace (λ t, t ++ [Write returnGeneral]) e4).
Proof.
  intros Hr Hreg Hrun kill e3 e4.
  destruct (wf_reg e (reachable_wf e Hr) _ _ Hreg) as [t Ht].
  set (t1 := rebound param t (contexts e)).
  set (e1 := started param task t e).
  set (e2 := killed (Int64ToStr (RunReq.JobID param)) (contexts e) e1).
  assert (kill e1 = Ret tt e2) as Hk.
  { apply (killTask_present _ _ {| killReq.JobID := RunReq.JobID param |} task t1);
      try done; simpl; apply lookup_insert_eq. }
  assert (runList e2 = runList e) as Hrun2.
  { simpl. unfold taskList.Del. by apply delete_insert_id. }
  assert (e3 = started param task t1 e2) as He3.
  { unfold e3. rewrite (runTask_idle_state e param task t) by done. cbn [after].
    fold e1. rewrite Hk. cbn [after].
    rewrite (runTask_idle_state e2 param task t1); [done|done|..].
    - simpl. apply lookup_insert_eq.
    - by rewrite Hrun2. }
  assert (runList e4 = runList e) as Hrun4.
  { unfold e4. rewrite He3.
    rewrite (callback_eq _ task (rebound param t1 (contexts e2)) param);
      [|simpl; apply lookup_insert_eq|done].
    simpl. unfold taskList.Del.
    rewrite delete_insert_eq, delete_delete_eq. by apply delete_insert_id. }
  split; [|split].
  - rewrite He3. simpl. apply lookup_insert_eq.
  - done.
  - rewrite idleBeat_Value. cbn [idleBeatReq.JobID].
    by rewrite Exists_false by (by rewrite Hrun4).
Qed.

(** ** Contexts and goroutines *)

Lemma goroutines_app (l k : list event) :
  goroutines (l ++ k) = goroutines l ++ goroutines k.
Proof. apply omap_app. Qed.

Lemma goroutines_alerts (o : Options) (t : Task) (param : RunReq.t)
    (msg : string) (net : Response) :
  goroutines (alerts o t param msg net) = [].
Proof.
  unfold alerts. destruct net as [err|[err|body]]; [done|done|].
  by destruct (_ || _).
Qed.

Lemma goroutines_replies (evs : list event) :
  (∀ ev, In ev evs → ∃ r, ev = Write r) → goroutines evs = [].
Proof.
  induction evs as [|ev evs IH]; [done|]. intros Hevs.
  destruct (Hevs ev (or_introl eq_refl)) as [r ->]. simpl.
  apply IH. intros ev' Hin. apply Hevs. by right.
Qed.

(** X18. A context is made only on the path that starts a goroutine: in
    every reachable executor the number of contexts made equals the number
    of goroutines started, so no request that is rejected, and no kill,
    idle-beat or callback, makes a context or starts a goroutine. *)
Theorem contexts_are_goroutines (e : executor) :
  reachable e → length (goroutines (trace e)) = contexts e.
Proof.
  induction 1 as [o|e pattern task Hr IH|e request Hr IH|e request Hr IH
                  |e request Hr IH|e task c msg net Hr IH Hgo].
  - done.
  - by destruct e.
  - destruct (runTask_cases e request (reachable_wf e Hr))
      as [[_ ->]|[(param & msg & ->)|[(param & task & t & _ & _ & _ & _ & ->)
         |(param & task & t & oldTask & old & cancel & _ & _ & _ & _ & _ & _ & _ & ->)]]];
      simpl; rewrite ?goroutines_app, ?length_app; simpl; lia.
  - destruct (killTask_cases e request (reachable_wf e Hr))
      as [[_ ->]|[(param & _ & _ & ->)|(param & task & t & cancel & _ & _ & _ & _ & ->)]];
      simpl; rewrite ?goroutines_app, ?length_app; simpl; lia.
  - destruct (idleBeat_state e request) as (evs & -> & Hevs). simpl.
    rewrite goroutines_app, length_app, (goroutines_replies evs Hevs). simpl. lia.
  - destruct (wf_go e (reachable_wf e Hr) _ Hgo) as (t & Ht & [param Hp] & _).
    rewrite (callback_eq e task t param) by done. simpl.
    rewrite goroutines_app, length_app. simpl.
    rewrite goroutines_alerts. simpl. lia.
Qed.

(** X19. Every entry of the running table was put there by the [Set] of
    an accepted run request, whose goroutine was started: the table never
    shows a job busy that no handler has started. *)
Theorem running_entries_were_started (e : executor) (key : string) (p : ptr) :
  reachable e →
  runList e !! key = Some p →
  In (RunSet key p) (trace e) ∧ In (Go p) (trace e).
Proof.
  intros Hr. revert key p.
  assert (∀ (e0 : executor) (evs : list event) (k : string),
            (∀ key p, runList e0 !! key = Some p →
                      In (RunSet key p) (trace e0) ∧ In (Go p) (trace e0)) →
            ∀ key p, taskList.Del (runList e0) k !! key = Some p →
                     In (RunSet key p) (trace e0 ++ evs) ∧
                     In (Go p) (trace e0 ++ evs)) as Hdel.
  { intros e0 evs k IH key p. unfold taskList.Del.
    intros [_ Hk]%lookup_delete_Some.
    destruct (IH _ _ Hk). split; apply in_or_app; by left. }
  assert (∀ (e0 : executor) (param : RunReq.t) (task : ptr) (t : Task),
            (∀ key p, runList e0 !! key = Some p →
                      In (RunSet key p) (trace e0) ∧ In (Go p) (trace e0)) →
            ∀ key p, runList (started param task t e0) !! key = Some p →
                     In (RunSet key p) (trace (started param task t e0)) ∧
                     In (Go p) (trace (started param task t e0))) as Hstart.
  { intros e0 param task t IH key p. simpl.
    intros [[<- <-]|[_ Hk]]%lookup_insert_Some.
    - split; apply in_or_app; right; [by left|right; by left].
    - destruct (IH _ _ Hk). split; apply in_or_app; by left. }
  induction Hr as [o|e pattern task Hr IH|e request Hr IH|e request Hr IH
                   |e request Hr IH|e task c msg net Hr IH Hgo]; intros key p.
  - simpl. by intros ?%lookup_empty_Some.
  - destruct e. simpl in *. apply IH.
  - destruct (runTask_cases e request (reachable_wf e Hr))
      as [[_ ->]|[(param & msg & ->)|[(param & task & t & _ & _ & _ & _ & ->)
         |(param & task & t & oldTask & old & cancel & _ & _ & _ & _ & _ & _ & _ & ->)]]].
    + apply IH.
    + simpl. intros Hk. destruct (IH _ _ Hk).
      split; apply in_or_app; by left.
    + by apply Hstart.
    + apply Hstart. unfold covered. simpl. by apply Hdel.
  - destruct (killTask_cases e request (reachable_wf e Hr))
      as [[_ ->]|[(param & _ & _ & ->)|(param & task & t & cancel & _ & _ & _ & _ & ->)]].
    + apply IH.
    + simpl. intros Hk. destruct (IH _ _ Hk).
      split; apply in_or_app; by left.
    + unfold killed. simpl. by apply Hdel.
  - destruct (idleBeat_state e request) as (evs & -> & _). simpl.
    intros Hk. destruct (IH _ _ Hk). split; apply in_or_app; by left.
  - destruct (wf_go e (reachable_wf e Hr) _ Hgo) as (t & Ht & [param Hp] & _).
    rewrite (callback_eq e task t param) by done.
    unfold called_back. simpl. by apply Hdel.
Qed.

End further.

(** * The further properties at work on the two-job executor *)

Section further_two_jobs.
#[local] Existing Instance wire.

Lemma admission_makes_new_cancel_witness :
  let e := Demo.one in
  let e' := after (runTask (Value (Demo.run 2 "")) e) in
  ∃ t, tasks e' !! 0%nat = Some t ∧ Cancel t = Some (contexts e) ∧
       contexts e' = S (contexts e) ∧
       (∀ p t0, tasks e !! p = Some t0 → Cancel t0 ≠ Some (contexts e)) ∧
       ¬ In (Invoke (contexts e)) (trace e').
Proof.
  intros e e'.
  apply (admission_makes_new_cancel e (Demo.run 2 "") 0%nat one_reachable).
  - reflexivity.
  - left. reflexivity.
Defined.

Lemma tasks_have_fn_witness :
  ∃ t, tasks Demo.two !! 0%nat = Some t ∧ is_Some (fn t).
Proof.
  eexists. split; [reflexivity|].
  eapply (tasks_have_fn Demo.two 0%nat _ two_reachable). reflexivity.
Defined.

Lemma registry_injective_witness : "demoJob" = "demoJob".
Proof.
  apply (registry_injective Demo.two "demoJob" "demoJob" 0%nat two_reachable);
    reflexivity.
Defined.

Lemma runTask_accepts_or_rejects_witness :
  let request := Value (Demo.run 3 "") in
  let e := Demo.two in
  (∃ param msg,
     events (runTask request) e = [Write (returnCall param FailureCode msg)] ∧
     runList (after (runTask request e)) = runList e ∧
     tasks (after (runTask request e)) = tasks e ∧
     contexts (after (runTask request e)) = contexts e) ∨
  (∃ param task pre,
     request = Value param ∧
     regList e !! RunReq.ExecutorHandler param = Some task ∧
     runList (after (runTask request e)) !! Int64ToStr (RunReq.JobID param)
       = Some task ∧
     events (runTask request) e =
       pre ++ [RunSet (Int64ToStr (RunReq.JobID param)) task; Go task;
               Write returnGeneral] ∧
     (pre = [] ∨ ∃ cancel key, pre = [Invoke cancel; RunDel key])).
Proof.
  intros request e.
  apply (runTask_accepts_or_rejects e request two_reachable). discriminate.
Defined.


Lemma kill_undoes_run_witness :
  let e := Demo.registered in
  let param := Demo.run 1 "" in
  let e1 := after (runTask (Value param) e) in
  let kill := killTask (Value {| killReq.JobID := 1 |}) in
  events kill e1 = [Invoke (contexts e); RunDel "1"; Write returnGeneral] ∧
  runList (after (kill e1)) = runList e.
Proof.
  intros e param e1 kill.
  apply (kill_undoes_run e param 0%nat registered_reachable); reflexivity.
Defined.

Lemma callback_undoes_run_witness :
  let e := Demo.registered in
  let param := Demo.run 1 "" in
  let e1 := after (runTask (Value param) e) in
  let done := callback 0%nat SuccessCode "ok" (Resp (Body "")) in
  In (Go 0%nat) (trace e1) ∧
  (∃ rest,
     events done e1 =
       RunDel "1" :: Post "/api/callback" (returnCall param SuccessCode "ok") :: rest ∧
     Forall (λ ev, ∃ w s m b, ev = Alert w s m b) rest) ∧
  runList (after (done e1)) = runList e.
Proof.
  intros e param e1 done.
  apply (callback_undoes_run e param 0%nat SuccessCode "ok" (Resp (Body ""))
           registered_reachable); reflexivity.
Defined.

Lemma coverEarly_replaces_own_run_witness :
  let e := Demo.registered in
  let param := Demo.run 1 "" in
  let param' := Demo.run 1 "COVER_EARLY" in
  let e1 := after (runTask (Value param) e) in
  let e2 := after (runTask (Value param') e1) in
  events (runTask (Value param')) e1 =
    [Invoke (contexts e); RunDel "1"; RunSet "1" 0%nat; Go 0%nat;
     Write returnGeneral] ∧
  runList e2 = <["1" := 0%nat]> (runList e) ∧
  Cancel <$> tasks e2 !! 0%nat = Some (Some (S (contexts e))).
Proof.
  intros e param param' e1 e2.
  apply (coverEarly_replaces_own_run e param param' 0%nat 0%nat
           registered_reachable); reflexivity.
Defined.

Lemma idleBeat_busy_after_run_witness :
  let e1 := after (runTask (Value (Demo.run 1 "")) Demo.registered) in
  idleBeat (Value {| idleBeatReq.JobID := 1 |}) e1 =
  Ret tt (with_trace (λ t, t ++ [Write (returnIdleBeat FailureCode)]) e1).
Proof.
  intros e1.
  apply (idleBeat_busy_after_run Demo.registered (Demo.run 1 "") 0%nat
           registered_reachable); [reflexivity|left; reflexivity].
Defined.

Lemma kill_settles_witness :
  let request := Value {| killReq.JobID := 2 |} in
  let e1 := after (killTask request Demo.two) in
  runList e1 !! "2" = None ∧
  idleBeat (Value {| idleBeatReq.JobID := 2 |}) e1 =
    Ret tt (with_trace (λ t, t ++ [Write returnGeneral]) e1) ∧
  killTask request e1 =
    Ret tt (with_trace (λ t, t ++ [Write (returnKill {| killReq.JobID := 2 |}
                                            FailureCode)]) e1).
Proof.
  intros request e1.
  apply (kill_settles Demo.two request {| killReq.JobID := 2 |} two_reachable).
  reflexivity.
Defined.

Lemma two_jobs_share_task_witness :
  let e := Demo.registered in
  let e2 := after (runTask (Value (Demo.run 2 ""))
                     (after (runTask (Value (Demo.run 1 "")) e))) in
  runList e2 !! "1" = Some 0%nat ∧
  runList e2 !! "2" = Some 0%nat ∧
  (∃ t, tasks e2 !! 0%nat = Some t ∧ Id t = 2%Z ∧
        Param t = Some (Demo.run 2 "") ∧ Cancel t = Some (S (contexts e))) ∧
  events (killTask (Value {| killReq.JobID := 1 |})) e2 =
    [Invoke (S (contexts e)); RunDel "1"; Write returnGeneral] ∧
  ∀ c msg net,
    let e3 := after (callback 0%nat c msg net e2) in
    runList e3 !! "1" = Some 0%nat ∧ runList e3 !! "2" = None.
Proof.
  intros e e2.
  apply (two_jobs_share_task e (Demo.run 1 "") (Demo.run 2 "") 0%nat
           registered_reachable); try reflexivity.
  intros Heq. vm_compute in Heq. discriminate.
Defined.

Lemma admission_deadline_witness :
  let param := {| RunReq.JobID := 5; RunReq.ExecutorHandler := "demoJob";
                  RunReq.ExecutorParams := ""; RunReq.ExecutorBlockStrategy := "";
                  RunReq.ExecutorTimeout := 30 |} in
  ∃ t, tasks (after (runTask (Value param) Demo.two)) !! 0%nat = Some t ∧
       timeout <$> Ext t = Some (Some 30000000000%Z).
Proof.
  intros param.
  apply (admission_deadline Demo.two param 0%nat two_reachable).
  - reflexivity.
  - left. reflexivity.
  - vm_compute. discriminate.
Defined.

Lemma admission_deadline_overflow_witness :
  let param := {| RunReq.JobID := 5; RunReq.ExecutorHandler := "demoJob";
                  RunReq.ExecutorParams := ""; RunReq.ExecutorBlockStrategy := "";
                  RunReq.ExecutorTimeout := 9223372037 |} in
  ∃ t, tasks (after (runTask (Value param) Demo.two)) !! 0%nat = Some t ∧
       timeout <$> Ext t = Some (Some (-9223372036709551616)%Z) ∧
       (9223372037 * 1000000000 - 2 ^ 64 < 0)%Z.
Proof.
  intros param.
  apply (admission_deadline_overflow Demo.two param 0%nat two_reachable).
  - reflexivity.
  - left. reflexivity.
  - split; vm_compute; [reflexivity|discriminate].
Defined.

Lemma callback_alerts_on_marker_witness :
  let evs := events (callback 0%nat SuccessCode "job FAILED: io Error"
                       (Resp (Body ""))) Demo.one in
  ((∃ w s content b, In (Alert w s content b) evs) ↔
   (∃ pre post, ToLower "job FAILED: io Error" = pre +:+ "fail" +:+ post ∨
                ToLower "job FAILED: io Error" = pre +:+ "error" +:+ post)) ∧
  (isASCII "job FAILED: io Error" = true ∧
   "job FAILED: io Error" = "job " +:+ "FAIL" +:+ "ED: io Error" ∧
   lowerBytes "FAIL" = "fail" ∧
   ∃ w s content b, In (Alert w s content b) evs).
Proof.
  intros evs.
  assert (In (Go 0%nat) (trace Demo.one)) as Hgo by (vm_compute; tauto).
  destruct (callback_alerts_on_marker Demo.one 0%nat SuccessCode
              "job FAILED: io Error" "" one_reachable Hgo) as [Hiff Hpiece].
  split; [exact Hiff|].
  split; [reflexivity|]. split; [reflexivity|]. split; [reflexivity|].
  apply (Hpiece "job " "FAIL" "ED: io Error");
    [reflexivity|reflexivity|left; reflexivity].
Defined.

Lemma run_without_cover_keeps_entries_witness :
  let param := Demo.run 3 "SERIAL_EXECUTION" in
  let evs := events (runTask (Value param)) Demo.two in
  (∀ cancel, ¬ In (Invoke cancel) evs) ∧
  (∀ key, ¬ In (RunDel key) evs) ∧
  runList Demo.two ⊆ runList (after (runTask (Value param) Demo.two)).
Proof.
  intros param evs.
  apply (run_without_cover_keeps_entries Demo.two param two_reachable).
  vm_compute. discriminate.
Defined.

Lemma late_callback_removes_new_run_witness :
  let e := Demo.registered in
  let param := Demo.run 1 "" in
  let kill := killTask (Value {| killReq.JobID := 1 |}) in
  let e3 := after (runTask (Value param)
                     (after (kill (after (runTask (Value param) e))))) in
  let e4 := after (callback 0%nat SuccessCode "killed" (PostErr "timeout") e3) in
  runList e3 !! "1" = Some 0%nat ∧
  runList e4 = runList e ∧
  idleBeat (Value {| idleBeatReq.JobID := 1 |}) e4 =
    Ret tt (with_trace (λ t, t ++ [Write returnGeneral]) e4).
Proof.
  intros e param kill e3 e4.
  apply (late_callback_removes_new_run e param 0%nat SuccessCode "killed"
           (PostErr "timeout") registered_reachable); reflexivity.
Defined.

Lemma contexts_are_goroutines_witness :
  length (goroutines (trace Demo.two)) = contexts Demo.two.
Proof. apply (contexts_are_goroutines Demo.two two_reachable). Defined.

Lemma running_entries_were_started_witness :
  In (RunSet "2" 0%nat) (trace Demo.two) ∧ In (Go 0%nat) (trace Demo.two).
Proof.
  apply (running_entries_were_started Demo.two "2" 0%nat two_reachable).
  reflexivity.
Defined.

Lemma registry_after_methods_witness :
  let template := {| Id := 0; Name := ""; Ext := None; Param := None;
                     fn := Some 7%nat; Cancel := None |} in
  tasks Demo.registered !! 0%nat = Some template ∧
  regList Demo.one !! "demoJob" = Some 0%nat ∧
  tasks Demo.one !! 0%nat = Some (rebound (Demo.run 1 "") template 0%nat) ∧
  rebound (Demo.run 1 "") template 0%nat ≠ template.
Proof.
  intros template.
  destruct (registry_after_methods Demo.registered) as (_ & Hrun & _).
  destruct (Hrun (Demo.run 1 "") 0%nat template) as [Hreg Ht];
    [reflexivity|reflexivity|reflexivity|].
  split; [reflexivity|]. split; [exact Hreg|]. split; [exact Ht|].
  discriminate.
Defined.

End further_two_jobs.
